(** * lattice: the resilient upstream request executor (http_rest.go)

    A shallow embedding of [calcBackoff], [isRetryableStatusCode],
    [isSuccessStatus], [execReq] and the method builders of
    [src/http_rest.go], with the properties of the retry loop, of the
    backoff calculator and of the header assembly. *)

From Stdlib Require Import ZArith QArith Lqa Lia String Ascii List DecimalString.
From stdpp Require Import gmap strings list.

Local Open Scope Z_scope.

(** ** Machine integers and durations

    The image is built for amd64 (Dockerfile: [GOARCH=amd64]), so Go's [int]
    and [time.Duration] (an [int64] count of nanoseconds) are both 64-bit
    two's-complement integers.  They are embedded as [Z], with the
    wrap-around of every arithmetic operation written out. *)

Definition Duration := Z.

Definition minInt64 : Z := - 2 ^ 63.
Definition maxInt64 : Z := 2 ^ 63 - 1.

Definition wrap64 (z : Z) : Z := (z + 2 ^ 63) mod 2 ^ 64 - 2 ^ 63.

Definition add64 (a b : Z) : Z := wrap64 (a + b).
Definition mul64 (a b : Z) : Z := wrap64 (a * b).

(** [x << n] on [int64].  A negative shift count is a run-time panic
    ([None]); a count of 64 or more shifts every bit out. *)
Definition shl64 (x n : Z) : option Z :=
  if n <? 0 then None else Some (wrap64 (Z.shiftl x n)).

(** [time.Second], in nanoseconds. *)
Definition Second : Duration := 1000000000.

(** ** Floating point

    [rand.Float64()] returns a [float64] in the half-open interval from 0
    to 1.  Every finite [float64] is a rational, so the values are embedded
    in [Q]; the rounding that follows each [float64] operation is the
    parameter [round64].  All that the proofs ask of it is [rounds_inside]:
    rounding does not leave the intervals between 0 and 1/2 and between
    -1/2 and 1/2, whose ends are [float64] values (round-to-nearest is
    monotone and fixes them).  The identity is such a rounding. *)

Definition rounds_inside (round64 : Q -> Q) : Prop :=
  (forall x : Q, (0 <= x <= 1 # 2)%Q -> (0 <= round64 x <= 1 # 2)%Q) /\
  (forall x : Q, (- (1 # 2) <= x <= 1 # 2)%Q ->
                 (- (1 # 2) <= round64 x <= 1 # 2)%Q).

(** The conversion [time.Duration(f)] of a [float64]: the fraction is
    discarded (truncation towards zero).  Go leaves the result open when
    the integer part does not fit; here it wraps. *)
Definition Duration_of_float64 (f : Q) : Duration :=
  wrap64 (Z.quot (Qnum f) (Z.pos (Qden f))).

(** ** The backoff calculator

    [rnd] is the value that the call [rand.Float64()] returns. *)
Definition calcBackoff (round64 : Q -> Q) (rnd : Q)
    (attempt : Z) (baseDelay : Duration) : option Duration :=
  match shl64 1 attempt with
  | None => None
  | Some pow =>
      let backoff := mul64 baseDelay pow in
      let jitter :=
        mul64 (Duration_of_float64
                 (round64 (round64 (rnd * round64 0.4) - round64 0.2)%Q))
              backoff in
      let backoff := add64 backoff jitter in
      let maxBackoff := 30 * Second in
      if backoff >? maxBackoff then Some maxBackoff else Some backoff
  end.

(** ** The retry classifier *)

Definition StatusTooManyRequests : Z := 429.
Definition StatusServiceUnavailable : Z := 503.
Definition StatusGatewayTimeout : Z := 504.

Definition isRetryableStatusCode (code : Z) : bool :=
  (code =? StatusTooManyRequests) ||
  (code =? StatusServiceUnavailable) ||
  (code =? StatusGatewayTimeout) ||
  (code >=? 500).

Definition isSuccessStatus (code : Z) : bool :=
  (code >=? 200) && (code <? 300).

(** ** Errors

    Go's [error] values, by the concrete types that occur in the file.
    [libError] stands for an error made by a library (net/http, io,
    encoding/json): its message, and what its [Unwrap] method returns. *)

#[warnings="-register-all"]
Inductive error : Type :=
| errorString (s : string)
| wrapError (msg : string) (err : error)
| RequestError (StatusCode : Z) (Body : string) (Err : option error)
| context_Canceled
| context_DeadlineExceeded
| libError (msg : string) (cause : option error).

(** [strconv.Itoa], also the verb [%d] of package fmt. *)
Definition Itoa (n : Z) : string := NilZero.string_of_int (Z.to_int n).

(** The method [Error()] of each error type; for [RequestError] it is
    [fmt.Sprintf("status %d: %s", e.StatusCode, e.Body)]. *)
Definition Error (e : error) : string :=
  match e with
  | errorString s => s
  | wrapError msg _ => msg
  | RequestError code body _ => "status " +:+ Itoa code +:+ ": " +:+ body
  | context_Canceled => "context canceled"
  | context_DeadlineExceeded => "context deadline exceeded"
  | libError msg _ => msg
  end.

(** [fmt.Errorf(prefix + "%w", err)]. *)
Definition Errorf_w (prefix : string) (err : error) : error :=
  wrapError (prefix +:+ Error err) err.

(** The verb [%v] applied to a possibly nil error. *)
Definition fmt_v (e : option error) : string :=
  match e with
  | None => "<nil>"
  | Some e => Error e
  end.

(** [fmt.Errorf("request failed after %d attempts: %v", attempts, lastErr)],
    the error made after the loop of [execReq]. *)
Definition exhaustedError (attempts : Z) (lastErr : option error) : error :=
  errorString ("request failed after " +:+ Itoa attempts +:+ " attempts: "
               +:+ fmt_v lastErr).

(** [errors.Is(e, context.Canceled) || errors.Is(e, context.DeadlineExceeded)]:
    the chain of [Unwrap] is followed; [RequestError] has no [Unwrap]. *)
Fixpoint isCancellation (e : error) : bool :=
  match e with
  | context_Canceled | context_DeadlineExceeded => true
  | wrapError _ err => isCancellation err
  | libError _ (Some err) => isCancellation err
  | _ => false
  end.

(** ** Requests, responses and the client *)

Record Request : Type := {
  Method : string;
  URL : string;
  Header : gmap string (list string);
  Body : option (list Byte.byte)
}.

(** A response as [execReq] observes it: the status code, and what
    [io.ReadAll(resp.Body)] returns. *)
Record Response : Type := {
  StatusCode : Z;
  ReadAll_data : list Byte.byte;
  ReadAll_err : option error
}.

Record HttpClient : Type := {
  baseDelay : Duration;
  maxAttempts : Z
}.

(** [NewHttpClient]: the policy is fixed at construction. *)
Definition NewHttpClient : HttpClient :=
  {| baseDelay := Second; maxAttempts := 3 |}.

(** ** The world outside the executor

    [Env] is what the environment answers: the result of the n-th call of
    [c.client.Do] and the value of the n-th call of [rand.Float64].
    [World] is what a call has done so far. *)

Record Env : Type := {
  round64 : Q -> Q;
  rand_Float64 : nat -> Q;
  client_Do : nat -> Request -> Response + error
}.

(** The effects of [execReq], in program order.  The elapsed wall-clock time
    of the debug record is left out. *)
Inductive Event : Type :=
| EvDo (req : Request)
| EvWarnw (msg : string) (attempt : Z) (err : error) (url : string)
| EvDebugw (msg : string) (method url : string) (status : Z)
| EvSleep (d : Duration)
| EvClose.

Record World : Type := {
  sent : nat;
  drawn : nat;
  events : list Event
}.

Definition emit (ev : Event) (w : World) : World :=
  {| sent := sent w; drawn := drawn w; events := events w ++ [ev] |}.

(** ** A state monad with panics

    [Panicked] is a Go run-time panic.  [OutOfFuel] is no behaviour of the
    program: it is what the loop below returns when its fuel does not
    suffice, and [execReq_returns] shows that it never does. *)

Inductive Res (A : Type) : Type :=
| Done (a : A) (w : World)
| Panicked
| OutOfFuel.
Arguments Done {A} a w.
Arguments Panicked {A}.
Arguments OutOfFuel {A}.

Definition M (A : Type) : Type := World -> Res A.

Definition ret {A} (a : A) : M A := fun w => Done a w.

Definition bind {A B} (m : M A) (k : A -> M B) : M B :=
  fun w => match m w with
           | Done a w' => k a w'
           | Panicked => Panicked
           | OutOfFuel => OutOfFuel
           end.

Notation "'let*' x ':=' m 'in' k" := (bind m (fun x => k))
  (at level 10, x name, m at level 100, k at level 200).
Notation "m '>>' k" := (bind m (fun _ => k))
  (at level 90, right associativity).

Definition log (ev : Event) : M unit := fun w => Done tt (emit ev w).

(** [c.client.Do(req)]. *)
Definition Do (E : Env) (req : Request) : M (Response + error) :=
  fun w => Done (client_Do E (sent w) req)
                {| sent := S (sent w); drawn := drawn w;
                   events := events w ++ [EvDo req] |}.

(** [time.Sleep(calcBackoff(i, c.baseDelay))]. *)
Definition sleepBackoff (E : Env) (c : HttpClient) (i : Z) : M unit :=
  fun w =>
    match calcBackoff (round64 E) (rand_Float64 E (drawn w)) i (baseDelay c) with
    | None => Panicked
    | Some d => Done tt {| sent := sent w; drawn := S (drawn w);
                           events := events w ++ [EvSleep d] |}
    end.

(** A [return] of [execReq]: the deferred [resp.Body.Close()] calls run. *)
Definition Result : Type := option (list Byte.byte) * option error.

Definition return_ (deferred : nat) (r : Result) : M Result :=
  fun w => Done r {| sent := sent w; drawn := drawn w;
                     events := events w ++ repeat EvClose deferred |}.

(** ** The request executor

    One iteration of [for i := 0; i < attempts; i++] per unit of fuel.  The
    guard gives [0 <= i < attempts] inside the body, so neither [i+1] nor
    [attempts-1] leaves the range of [int]. *)
Fixpoint execLoop (E : Env) (c : HttpClient) (req : Request) (attempts : Z)
    (fuel : nat) (i : Z) (lastErr : option error) (deferred : nat)
    : M Result :=
  if i <? attempts then
    match fuel with
    | O => fun _ => OutOfFuel
    | S fuel =>
        let* r := Do E req in
        match r with
        | inr err =>
            let lastErr := Errorf_w "request failed: " err in
            if i <? attempts - 1 then
              log (EvWarnw "retrying failed request" (i + 1) err (URL req)) >>
              sleepBackoff E c i >>
              execLoop E c req attempts fuel (i + 1) (Some lastErr) deferred
            else return_ deferred (None, Some lastErr)
        | inl resp =>
            let deferred := S deferred in
            log (EvDebugw "request completed" (Method req) (URL req)
                          (StatusCode resp)) >>
            match ReadAll_err resp with
            | Some err =>
                let lastErr := Errorf_w "reading response: " err in
                if i <? attempts - 1 then
                  sleepBackoff E c i >>
                  execLoop E c req attempts fuel (i + 1) (Some lastErr) deferred
                else return_ deferred (None, Some lastErr)
            | None =>
                if negb (isSuccessStatus (StatusCode resp)) then
                  let lastErr :=
                    RequestError (StatusCode resp)
                                 (string_of_list_byte (ReadAll_data resp)) None in
                  if (i <? attempts - 1)
                     && isRetryableStatusCode (StatusCode resp) then
                    sleepBackoff E c i >>
                    execLoop E c req attempts fuel (i + 1) (Some lastErr) deferred
                  else return_ deferred (None, Some lastErr)
                else return_ deferred (Some (ReadAll_data resp), None)
            end
        end
    end
  else return_ deferred (None, Some (exhaustedError attempts lastErr)).

Definition execReq (E : Env) (c : HttpClient) (req : Request) (attempts : Z)
    : M Result :=
  execLoop E c req attempts (Z.to_nat attempts) 0 None 0.

(** ** The method builders

    What the builders take from outside the repository is a variable of the
    section: the encoders, the request constructor of net/http, the
    canonical form of a header key that [Header.Set] stores under, and
    [range], the order in which a [for k, v := range headers] visits the
    entries of the caller's map (Go leaves it unspecified; it visits each
    entry once). *)

Section Builders.

Variable Context : Type.
Variable Payload : Type.
Variable Values : Type.
Variable json_Marshal : Payload -> list Byte.byte + error.
Variable Values_Encode : Values -> string.
Variable NewRequestWithContext :
  Context -> string -> string -> option (list Byte.byte) -> Request + error.
Variable CanonicalMIMEHeaderKey : string -> string.
Variable range : gmap string string -> list (string * string).

Definition MethodGet : string := "GET".
Definition MethodPost : string := "POST".
Definition MethodPut : string := "PUT".
Definition MethodPatch : string := "PATCH".
Definition MethodDelete : string := "DELETE".

(** [req.Header.Set(k, v)]. *)
Definition Header_Set (req : Request) (k v : string) : Request :=
  {| Method := Method req; URL := URL req;
     Header := <[CanonicalMIMEHeaderKey k := [v]]> (Header req);
     Body := Body req |}.

(** [for k, v := range headers { req.Header.Set(k, v) }]. *)
Definition rangeSet (req : Request) (headers : gmap string string) : Request :=
  foldl (fun r kv => Header_Set r kv.1 kv.2) req (range headers).

Definition PostJsonReq (E : Env) (c : HttpClient) (ctx : Context)
    (url : string) (payload : Payload) (headers : gmap string string)
    : M Result :=
  match json_Marshal payload with
  | inr err => ret (None, Some (Errorf_w "marshaling JSON: " err))
  | inl jsonBody =>
      match NewRequestWithContext ctx MethodPost url (Some jsonBody) with
      | inr err => ret (None, Some (Errorf_w "creating request: " err))
      | inl req =>
          let req := Header_Set req "Content-Type" "application/json" in
          let req := rangeSet req headers in
          execReq E c req (maxAttempts c)
      end
  end.

Definition PostFormReq (E : Env) (c : HttpClient) (ctx : Context)
    (url : string) (formData : Values) (headers : gmap string string)
    : M Result :=
  let encodedData := Values_Encode formData in
  match NewRequestWithContext ctx MethodPost url
          (Some (list_byte_of_string encodedData)) with
  | inr err => ret (None, Some (Errorf_w "creating request: " err))
  | inl req =>
      let req := Header_Set req "Content-Type"
                            "application/x-www-form-urlencoded" in
      let req := Header_Set req "Content-Length"
                            (Itoa (Z.of_nat (String.length encodedData))) in
      let req := rangeSet req headers in
      execReq E c req (maxAttempts c)
  end.

Definition GetReq (E : Env) (c : HttpClient) (ctx : Context)
    (url : string) (headers : gmap string string) : M Result :=
  match NewRequestWithContext ctx MethodGet url None with
  | inr err => ret (None, Some (Errorf_w "creating request: " err))
  | inl req =>
      let req := rangeSet req headers in
      execReq E c req (maxAttempts c)
  end.

Definition PutJsonReq (E : Env) (c : HttpClient) (ctx : Context)
    (url : string) (payload : Payload) (headers : gmap string string)
    : M Result :=
  match json_Marshal payload with
  | inr err => ret (None, Some (Errorf_w "marshaling JSON: " err))
  | inl jsonBody =>
      match NewRequestWithContext ctx MethodPut url (Some jsonBody) with
      | inr err => ret (None, Some (Errorf_w "creating request: " err))
      | inl req =>
          let req := Header_Set req "Content-Type" "application/json" in
          let req := rangeSet req headers in
          execReq E c req (maxAttempts c)
      end
  end.

Definition PatchJsonReq (E : Env) (c : HttpClient) (ctx : Context)
    (url : string) (payload : Payload) (headers : gmap string string)
    : M Result :=
  match json_Marshal payload with
  | inr err => ret (None, Some (Errorf_w "marshaling JSON: " err))
  | inl jsonBody =>
      match NewRequestWithContext ctx MethodPatch url (Some jsonBody) with
      | inr err => ret (None, Some (Errorf_w "creating request: " err))
      | inl req =>
          let req := Header_Set req "Content-Type" "application/json" in
          let req := rangeSet req headers in
          execReq E c req (maxAttempts c)
      end
  end.

Definition DeleteReq (E : Env) (c : HttpClient) (ctx : Context)
    (url : string) (headers : gmap string string) : M Result :=
  match NewRequestWithContext ctx MethodDelete url None with
  | inr err => ret (None, Some (Errorf_w "creating request: " err))
  | inl req =>
      let req := rangeSet req headers in
      execReq E c req (maxAttempts c)
  end.

End Builders.

(** ** Vocabulary of the statements *)

(** [x] clamped to the interval from [lo] to [hi]. *)
Definition clampQ (lo hi x : Q) : Q :=
  if Qlt_le_dec x lo then lo else if Qlt_le_dec hi x then hi else x.

(** The error that [execReq] stores in [lastErr] for the outcome of one
    attempt; [None] for a 2xx response whose body was read. *)
Definition lastErrOf (o : Response + error) : option error :=
  match o with
  | inr err => Some (Errorf_w "request failed: " err)
  | inl resp =>
      match ReadAll_err resp with
      | Some err => Some (Errorf_w "reading response: " err)
      | None =>
          if negb (isSuccessStatus (StatusCode resp)) then
            Some (RequestError (StatusCode resp)
                               (string_of_list_byte (ReadAll_data resp)) None)
          else None
      end
  end.

(** The outcomes after which [execReq] goes on to another attempt while
    attempts remain: a failed [Do], a failed body read, a non-2xx status
    that [isRetryableStatusCode] accepts. *)
Definition outcomeRetryable (o : Response + error) : bool :=
  match o with
  | inr _ => true
  | inl resp =>
      match ReadAll_err resp with
      | Some _ => true
      | None => negb (isSuccessStatus (StatusCode resp))
                && isRetryableStatusCode (StatusCode resp)
      end
  end.

(** Transport-class failures: [Do] failed, or the body could not be read. *)
Definition transportFailure (o : Response + error) : bool :=
  match o with
  | inr _ => true
  | inl resp => match ReadAll_err resp with Some _ => true | None => false end
  end.

(** The error behind a transport-class failure. *)
Definition failureCause (o : Response + error) : option error :=
  match o with
  | inr err => Some err
  | inl resp => ReadAll_err resp
  end.

(** What [execReq] returns when it stops at the outcome [o]. *)
Definition resultOf (o : Response + error) : Result :=
  match lastErrOf o with
  | Some e => (None, Some e)
  | None =>
      match o with
      | inl resp => (Some (ReadAll_data resp), None)
      | inr _ => (None, None)
      end
  end.

(** The number of [time.Sleep] calls in a trace. *)
Fixpoint sleepsOf (evs : list Event) : nat :=
  match evs with
  | [] => 0
  | EvSleep _ :: evs => S (sleepsOf evs)
  | _ :: evs => sleepsOf evs
  end.

(** [range] visits every entry of the map once, in an order of its own. *)
Definition visits_each_entry_once
    (range : gmap string string -> list (string * string)) : Prop :=
  forall m, range m ≡ₚ map_to_list m.

(** The request [req] carries a caller's value under the header [K]: the
    value of a caller's entry whose key has the canonical form [K], and the
    value [v] of the caller's key [k] when no other key of the caller has
    that canonical form. *)
Definition carriesCallerValue (canon : string -> string)
    (headers : gmap string string) (K k v : string) (req : Request) : Prop :=
  (exists k' v', headers !! k' = Some v' /\ canon k' = K /\
                 Header req !! K = Some [v']) /\
  ((forall k', is_Some (headers !! k') -> canon k' = K -> k' = k) ->
   Header req !! K = Some [v]).

(** Modelled from the spec's words (section 4.2, Retry Classifier), to be
    compared with [outcomeRetryable], which is what the code does: a
    transport failure or a failed body read is retryable unless it is a
    cancellation or an expired deadline signalled by the caller; a status
    outcome is retryable when the code is 429, 503, 504 or at least 500; a
    2xx response is never retried. *)
Definition specRetryable (o : Response + error) : bool :=
  match o with
  | inr err => negb (isCancellation err)
  | inl resp =>
      match ReadAll_err resp with
      | Some err => negb (isCancellation err)
      | None => negb (isSuccessStatus (StatusCode resp))
                && isRetryableStatusCode (StatusCode resp)
      end
  end.

(** ** Sample environments *)

Definition exact : Q -> Q := fun x => x.

Definition request0 : Request :=
  {| Method := "GET"; URL := "http://upstream/items"; Header := ∅;
     Body := None |}.

Definition world0 : World := {| sent := 0; drawn := 0; events := [] |}.

Definition respond (code : Z) (body : string) : Response + error :=
  inl {| StatusCode := code; ReadAll_data := list_byte_of_string body;
         ReadAll_err := None |}.

(** Every connection is refused. *)
Definition envRefused : Env :=
  {| round64 := exact; rand_Float64 := fun _ => 0.5%Q;
     client_Do := fun _ _ => inr (libError "dial tcp: connection refused" None) |}.

(** The caller's context is cancelled before the first attempt completes. *)
Definition envCanceled : Env :=
  {| round64 := exact; rand_Float64 := fun _ => 0.5%Q;
     client_Do := fun _ _ => inr (libError "Get: context canceled"
                                           (Some context_Canceled)) |}.

(** The upstream answers 404 with a payload. *)
Definition env404 : Env :=
  {| round64 := exact; rand_Float64 := fun _ => 0.5%Q;
     client_Do := fun _ _ => respond 404 "no such item" |}.

(** Two refused connections, then 200 with the body "ok". *)
Definition envFlaky : Env :=
  {| round64 := exact; rand_Float64 := fun _ => 0.5%Q;
     client_Do := fun n _ =>
       if (n <? 2)%nat then inr (libError "dial tcp: connection refused" None)
       else respond 200 "ok" |}.

(** A caller of the builders: the payload is already JSON text, every
    request can be made, [Header.Set] stores the lower-case key of the
    caller under [Content-Type], and [range] visits the map in the order of
    [map_to_list]. *)
Definition sampleMarshal (payload : string) : list Byte.byte + error :=
  inl (list_byte_of_string payload).

Definition sampleNewRequest (_ : unit) (method url : string)
    (body : option (list Byte.byte)) : Request + error :=
  inl {| Method := method; URL := url; Header := ∅; Body := body |}.

Definition sampleCanon (k : string) : string :=
  if String.eqb k "content-type" then "Content-Type" else k.

Definition sampleHeaders : gmap string string :=
  {[ "content-type" := "text/plain" ]}.

(** ** More vocabulary: what a trace holds *)

(** The number of [resp.Body.Close()] calls in a trace. *)
Fixpoint closesOf (evs : list Event) : nat :=
  match evs with
  | [] => 0
  | EvClose :: evs => S (closesOf evs)
  | _ :: evs => closesOf evs
  end.

(** The arguments of the [time.Sleep] calls of a trace, in order. *)
Fixpoint sleepDurations (evs : list Event) : list Duration :=
  match evs with
  | [] => []
  | EvSleep d :: evs => d :: sleepDurations evs
  | _ :: evs => sleepDurations evs
  end.

(** 1 when [Do] handed back a response (whose body is then to be closed). *)
Definition received (o : Response + error) : nat :=
  match o with
  | inl _ => 1
  | inr _ => 0
  end.

(** The number of responses among the [n] calls of [Do] from call [start]. *)
Fixpoint responsesReceived (E : Env) (req : Request) (start n : nat) : nat :=
  match n with
  | O => 0
  | S n => received (client_Do E start req) + responsesReceived E req (S start) n
  end.

(** 503 twice, then 200 with the body "ok". *)
Definition envRecovers : Env :=
  {| round64 := exact; rand_Float64 := fun _ => 0.5%Q;
     client_Do := fun n _ =>
       if (n <? 2)%nat then respond 503 "busy" else respond 200 "ok" |}.

(** The upstream answers 503 every time. *)
Definition envBusy : Env :=
  {| round64 := exact; rand_Float64 := fun _ => 0.5%Q;
     client_Do := fun _ _ => respond 503 "busy" |}.

(** A caller whose only header does not touch the defaults, an encoder that
    refuses its payload, and a URL from which no request can be made. *)
Definition sampleHeadersOther : gmap string string :=
  {[ "X-Request-Id" := "42" ]}.

Definition sampleMarshalFails (payload : string) : list Byte.byte + error :=
  inr (libError "json: unsupported value" None).

Definition sampleNewRequestFails (_ : unit) (method url : string)
    (body : option (list Byte.byte)) : Request + error :=
  inr (libError "parse: missing protocol scheme" None).

(** The call [call], started in the world [w], returns after at most [n]
    calls of [c.client.Do]. *)
Definition sendsAtMost (n : nat) (w : World) (call : M Result) : Prop :=
  exists r w', call w = Done r w' /\ (sent w <= sent w' <= sent w + n)%nat.

(** ** Middleware (middleware.go)

    A handler is observed through the calls it makes on its
    [http.ResponseWriter], in order; [None] is a run-time panic.
    [http.Error] is a call of net/http and is recorded as such. *)

Inductive WriterCall : Type :=
| W_HeaderSet (key value : string)
| W_WriteHeader (code : Z)
| W_Write (data : string)
| W_Error (msg : string) (code : Z).

Definition Handler : Type :=
  Request -> list WriterCall -> option (list WriterCall).

Definition Middleware : Type := Handler -> Handler.

(** [for i := len(m) - 1; i >= 0; i-- { h = m[i](h) }], with [n = i + 1]:
    the iterations [i = n-1, ..., 0] are still to run.  The index stays
    below [len(m)], so the lookup finds an element. *)
Fixpoint TowerLoop (m : list Middleware) (n : nat) (h : Handler) : Handler :=
  match n with
  | O => h
  | S i =>
      match m !! i with
      | Some mi => TowerLoop m i (mi h)
      | None => h
      end
  end.

Definition Tower (h : Handler) (m : list Middleware) : Handler :=
  TowerLoop m (length m) h.

Definition StatusOK : Z := 200.
Definition StatusUnauthorized : Z := 401.
Definition StatusMethodNotAllowed : Z := 405.

Definition CORS (next : Handler) : Handler :=
  fun request writer =>
    let writer := writer ++ [W_HeaderSet "Access-Control-Allow-Origin" "*"] in
    let writer :=
      writer ++ [W_HeaderSet "Access-Control-Allow-Methods"
                             "GET, POST, PUT, PATCH, DELETE, OPTIONS"] in
    let writer :=
      writer ++ [W_HeaderSet "Access-Control-Allow-Headers"
                             "Content-Type, Authorization"] in
    if String.eqb (Method request) "OPTIONS" then
      Some (writer ++ [W_WriteHeader StatusOK])
    else next request writer.

(** The search loop of [MethodMiddleware]: [allowed] after
    [for _, method := range allowedMethods]. *)
Fixpoint methodAllowed (allowedMethods : list string) (requestMethod : string)
    : bool :=
  match allowedMethods with
  | [] => false
  | method :: rest =>
      if String.eqb method requestMethod then true
      else methodAllowed rest requestMethod
  end.

(** [strings.Join(elems, sep)]. *)
Definition strings_Join (elems : list string) (sep : string) : string :=
  String.concat sep elems.

Definition MethodMiddleware (allowedMethods : list string) : Middleware :=
  fun next request writer =>
    if String.eqb (Method request) "OPTIONS" then next request writer
    else
      let allowed := methodAllowed allowedMethods (Method request) in
      if negb allowed then
        Some (writer ++ [W_HeaderSet "Allow" (strings_Join allowedMethods ", ");
                         W_Error "Method not allowed" StatusMethodNotAllowed])
      else next request writer.

(** [h.Get(key)] of [http.Header]: the first value stored under the
    canonical form of the key, the empty string when there is none. *)
Definition Header_Get (canon : string -> string)
    (h : gmap string (list string)) (key : string) : string :=
  match h !! canon key with
  | Some (v :: _) => v
  | _ => ""
  end.

(** The slice expression [s[n:]]: a run-time panic ([None]) when [n]
    exceeds the length of [s]. *)
Fixpoint sliceFrom (n : nat) (s : string) : option string :=
  match n, s with
  | O, _ => Some s
  | S n, String _ s => sliceFrom n s
  | S _, EmptyString => None
  end.

(** [verifyToken] is not in the repository's sources: it is a parameter,
    [None] for a nil error. *)
Definition ProtectedHandler (canon : string -> string)
    (verifyToken : string -> option error) : Handler :=
  fun r w =>
    let w := w ++ [W_HeaderSet "Content-Type" "application/json"] in
    let tokenString := Header_Get canon (Header r) "Authorization" in
    if String.eqb tokenString "" then
      Some (w ++ [W_WriteHeader StatusUnauthorized;
                  W_Write "missing authorization header"])
    else
      match sliceFrom (String.length "Bearer ") tokenString with
      | None => None
      | Some tokenString =>
          match verifyToken tokenString with
          | Some _ =>
              Some (w ++ [W_WriteHeader StatusUnauthorized;
                          W_Write "invalid token"])
          | None => Some (w ++ [W_Write "access granted"])
          end
      end.

Record User : Type := {
  Username : string;
  Password : string
}.

Definition StatusInternalServerError : Z := 500.

(** [LoginHandler].  [decodeUser] is what [json.NewDecoder(r.Body).Decode(&u)]
    leaves in [u] (its error is dropped by the code), [createToken] is not in
    the repository's sources; both are parameters.  [fmt.Println(w, s)]
    prints to the standard output, of which the lines [s] are kept; the
    handler returns the calls on the writer and the standard output. *)
Definition LoginHandler (decodeUser : option (list Byte.byte) -> User)
    (createToken : string -> string * option error)
    (r : Request) (w : list WriterCall) (stdout : list string)
    : list WriterCall * list string :=
  let w := w ++ [W_HeaderSet "Content-Type" "application/json"] in
  let u := decodeUser (Body r) in
  if String.eqb (Username u) "admin" && String.eqb (Password u) "123456" then
    let (tokenString, err) := createToken (Username u) in
    let (w, stdout) :=
      match err with
      | Some _ => (w ++ [W_WriteHeader StatusInternalServerError],
                   stdout ++ ["no user found"%string])
      | None => (w, stdout)
      end in
    (w ++ [W_WriteHeader StatusOK], stdout ++ [tokenString])
  else
    (w ++ [W_WriteHeader StatusUnauthorized],
     stdout ++ ["invalid credentials"%string]).

(** The three [Header().Set] calls of [CORS]. *)
Definition corsCalls : list WriterCall :=
  [W_HeaderSet "Access-Control-Allow-Origin" "*";
   W_HeaderSet "Access-Control-Allow-Methods"
               "GET, POST, PUT, PATCH, DELETE, OPTIONS";
   W_HeaderSet "Access-Control-Allow-Headers" "Content-Type, Authorization"].

(** Sample handlers and requests: a backend that answers "hello", a token
    check that accepts the token "t0k3n" alone, and requests with an
    [Authorization] header. *)
Definition helloHandler : Handler :=
  fun _ w => Some (w ++ [W_Write "hello"]).

Definition sampleVerify (token : string) : option error :=
  if String.eqb token "t0k3n" then None else Some (errorString "invalid token").

Definition requestWith (method authorization : string) : Request :=
  {| Method := method; URL := "/api/example";
     Header := {[ "Authorization" := [authorization] ]}; Body := None |}.

(** ** Machine arithmetic *)

Lemma wrap64_small (z : Z) : minInt64 <= z <= maxInt64 -> wrap64 z = z.
Proof.
  unfold wrap64, minInt64, maxInt64. intros H.
  rewrite Z.mod_small; lia.
Qed.

Lemma wrap64_mul_wrap64_r (a b : Z) : wrap64 (a * wrap64 b) = wrap64 (a * b).
Proof.
  unfold wrap64.
  f_equal.
  rewrite (Z.mod_eq (b + 2 ^ 63) (2 ^ 64)) by lia.
  replace (a * (b + 2 ^ 63 - 2 ^ 64 * ((b + 2 ^ 63) / 2 ^ 64) - 2 ^ 63) + 2 ^ 63)
    with (a * b + 2 ^ 63 + (- a * ((b + 2 ^ 63) / 2 ^ 64)) * 2 ^ 64) by ring.
  apply Z_mod_plus_full.
Qed.

Lemma Duration_of_float64_small (f : Q) :
  (- (1 # 2) <= f <= 1 # 2)%Q -> Duration_of_float64 f = 0.
Proof.
  destruct f as [n d]. unfold Duration_of_float64, Qle. cbn.
  intros [Hlo Hhi].
  assert (Hq : Z.quot n (Z.pos d) = 0).
  { destruct (Z.le_gt_cases 0 n) as [Hn | Hn].
    - apply Z.quot_small. lia.
    - rewrite <- (Z.opp_involutive n), Z.quot_opp_l by lia.
      rewrite Z.quot_small; lia. }
  rewrite Hq. reflexivity.
Qed.

(** The jitter factor [rand.Float64()*0.4-0.2] lies between -0.2 and 0.2, so
    its conversion to [time.Duration] is 0. *)
Lemma jitter_truncates (fl : Q -> Q) (rnd : Q) :
  rounds_inside fl -> (0 <= rnd < 1)%Q ->
  Duration_of_float64 (fl (fl (rnd * fl 0.4) - fl 0.2)%Q) = 0.
Proof.
  intros [Hpos Hsym] [Hr0 Hr1].
  apply Duration_of_float64_small, Hsym.
  assert (H4 : (0 <= fl 0.4 <= 1 # 2)%Q) by (apply Hpos; lra).
  assert (H2 : (0 <= fl 0.2 <= 1 # 2)%Q) by (apply Hpos; lra).
  assert (Hp : (0 <= fl (rnd * fl 0.4) <= 1 # 2)%Q).
  { apply Hpos. nra. }
  lra.
Qed.

Lemma rounds_inside_exact : rounds_inside exact.
Proof. split; intros x H; exact H. Defined.

(** ** Properties of the backoff calculator *)

Lemma calcBackoff_in_range (fl : Q -> Q) (rnd : Q) (attempt : Z) (base : Duration) :
  rounds_inside fl -> (0 <= rnd < 1)%Q -> 0 <= attempt ->
  minInt64 <= base * 2 ^ attempt <= maxInt64 ->
  calcBackoff fl rnd attempt base
  = Some (Z.min (base * 2 ^ attempt) (30 * Second)).
Proof.
  intros Hfl Hr Ha Hrange.
  unfold calcBackoff, shl64.
  destruct (Z.ltb_spec attempt 0) as [? | _]; [lia |].
  cbv zeta.
  rewrite (jitter_truncates fl rnd Hfl Hr).
  rewrite Z.shiftl_1_l.
  assert (Hb : mul64 base (wrap64 (2 ^ attempt)) = base * 2 ^ attempt).
  { unfold mul64. rewrite wrap64_mul_wrap64_r. apply wrap64_small, Hrange. }
  rewrite Hb. unfold mul64, add64. rewrite Z.mul_0_l.
  change (wrap64 0) with 0. rewrite Z.add_0_r, (wrap64_small _ Hrange).
  destruct (Z.gtb_spec (base * 2 ^ attempt) (30 * Second)) as [Hgt | Hle].
  - rewrite Z.min_r by lia. reflexivity.
  - rewrite Z.min_l by lia. reflexivity.
Qed.

Lemma calcBackoff_nonneg_attempt (fl : Q -> Q) (rnd : Q) (attempt : Z) (base : Duration) :
  0 <= attempt -> exists d, calcBackoff fl rnd attempt base = Some d.
Proof.
  intros Ha. unfold calcBackoff, shl64.
  destruct (Z.ltb_spec attempt 0) as [? | _]; [lia |].
  cbv zeta. match goal with |- context [if ?b then _ else _] => destruct b end; eauto.
Qed.

(** C10.  In the range where [base * 2^attempt] fits an [int64], the jitter
    term is 0 (the factor [rand.Float64()*0.4-0.2] is converted to an
    integer duration before it is multiplied), and [calcBackoff] returns
    [min (base * 2^attempt) (30 seconds)] whatever the random draw: two runs
    with different draws return the same delay. *)
Theorem calcBackoff_deterministic
    (fl : Q -> Q) (r1 r2 : Q) (attempt : Z) (base : Duration) :
  rounds_inside fl -> (0 <= r1 < 1)%Q -> (0 <= r2 < 1)%Q ->
  0 <= attempt -> minInt64 <= base * 2 ^ attempt <= maxInt64 ->
  Duration_of_float64 (fl (fl (r1 * fl 0.4) - fl 0.2)%Q) = 0 /\
  calcBackoff fl r1 attempt base
  = Some (Z.min (base * 2 ^ attempt) (30 * Second)) /\
  calcBackoff fl r2 attempt base = calcBackoff fl r1 attempt base.
Proof.
  intros Hfl H1 H2 Ha Hrange.
  split; [apply jitter_truncates; assumption |].
  rewrite !calcBackoff_in_range by assumption.
  split; reflexivity.
Qed.

Lemma calcBackoff_deterministic_witness :
  Duration_of_float64 (exact (exact (0 * exact 0.4) - exact 0.2)%Q) = 0 /\
  calcBackoff exact 0 3 Second = Some (Z.min (Second * 2 ^ 3) (30 * Second)) /\
  calcBackoff exact (999 # 1000) 3 Second = calcBackoff exact 0 3 Second.
Proof.
  apply (calcBackoff_deterministic exact 0 (999 # 1000) 3 Second).
  - exact rounds_inside_exact.
  - lra.
  - lra.
  - lia.
  - unfold minInt64, maxInt64, Second. lia.
Defined.

(** C3, at the input [attempt = 0], [baseDelay = 1s]: for the draw 0 (a
    factor of 0.8 is expected, a delay of 0.8s) and for the draw 0.999 (a
    factor near 1.2) the code returns exactly one second. *)
Theorem calcBackoff_jitter_lost :
  calcBackoff exact 0 0 Second = Some Second /\
  calcBackoff exact (999 # 1000) 0 Second = Some Second.
Proof. split; vm_compute; reflexivity. Qed.

(** C4, as stated, fails: at attempt 34 with a base delay of one second the
    product [10^9 * 2^34] wraps around and the delay is negative. *)
Lemma calcBackoff_overflow_negative :
  0 <= 34 /\ 0 < Second /\
  exists d, calcBackoff exact 0.5 34 Second = Some d /\ d < 0.
Proof.
  split; [lia |]. split; [reflexivity |].
  exists (-1266874889709551616). split; [vm_compute; reflexivity | lia].
Qed.

(** C4, amended.  For an attempt index [i >= 0] and a base delay [b > 0]
    whose nominal delay [b * 2^i] fits an [int64], [calcBackoff i b] lies
    within [0.8 * b * 2^i] and [1.2 * b * 2^i] clamped to the interval from
    0 to 30 seconds; a nominal delay above the cap gives the cap, and the
    result is not negative. *)
Theorem calcBackoff_bounds
    (fl : Q -> Q) (rnd : Q) (i : Z) (b : Duration) :
  rounds_inside fl -> (0 <= rnd < 1)%Q ->
  0 <= i -> 0 < b -> b * 2 ^ i <= maxInt64 ->
  exists d,
    calcBackoff fl rnd i b = Some d /\
    0 <= d <= 30 * Second /\
    (30 * Second < b * 2 ^ i -> d = 30 * Second) /\
    (clampQ 0 (inject_Z (30 * Second)) (0.8 * inject_Z (b * 2 ^ i))
     <= inject_Z d
     <= clampQ 0 (inject_Z (30 * Second)) (1.2 * inject_Z (b * 2 ^ i)))%Q.
Proof.
  intros Hfl Hr Hi Hb Hmax.
  assert (Hn : 0 < b * 2 ^ i) by (apply Z.mul_pos_pos; [lia | apply Z.pow_pos_nonneg; lia]).
  exists (Z.min (b * 2 ^ i) (30 * Second)).
  split.
  { apply calcBackoff_in_range; try assumption. unfold minInt64. lia. }
  assert (Hcap : 0 < 30 * Second) by reflexivity.
  split; [lia |]. split; [lia |].
  assert (HnQ : (inject_Z 0 < inject_Z (b * 2 ^ i))%Q) by (rewrite <- Zlt_Qlt; exact Hn).
  assert (HcQ : (inject_Z 0 < inject_Z (30 * Second))%Q) by (rewrite <- Zlt_Qlt; exact Hcap).
  change (inject_Z 0) with 0%Q in HnQ, HcQ.
  destruct (Z.le_gt_cases (b * 2 ^ i) (30 * Second)) as [Hle | Hgt].
  - rewrite Z.min_l by lia.
    rewrite Zle_Qle in Hle.
    revert HnQ HcQ Hle.
    generalize (inject_Z (b * 2 ^ i)) (inject_Z (30 * Second)). intros n cap ? ? ?.
    unfold clampQ. repeat destruct Qlt_le_dec; lra.
  - rewrite Z.min_r by lia.
    rewrite Zlt_Qlt in Hgt.
    revert HnQ HcQ Hgt.
    generalize (inject_Z (b * 2 ^ i)) (inject_Z (30 * Second)). intros n cap ? ? ?.
    unfold clampQ. repeat destruct Qlt_le_dec; lra.
Qed.

Lemma calcBackoff_bounds_witness :
  exists d,
    calcBackoff exact 0.5 5 Second = Some d /\
    0 <= d <= 30 * Second /\
    (30 * Second < Second * 2 ^ 5 -> d = 30 * Second) /\
    (clampQ 0 (inject_Z (30 * Second)) (0.8 * inject_Z (Second * 2 ^ 5))
     <= inject_Z d
     <= clampQ 0 (inject_Z (30 * Second)) (1.2 * inject_Z (Second * 2 ^ 5)))%Q.
Proof.
  apply (calcBackoff_bounds exact 0.5 5 Second).
  - exact rounds_inside_exact.
  - lra.
  - lia.
  - reflexivity.
  - unfold maxInt64, Second. lia.
Defined.

(** ** Properties of the retry classifier *)

(** C1, as stated, fails: 600 is a non-2xx status outside the listed set
    and the classifier reports it retryable. *)
Lemma isRetryableStatusCode_600 :
  isSuccessStatus 600 = false /\
  ~ (600 = 429 \/ 600 = 503 \/ 600 = 504 \/ 500 <= 600 <= 599) /\
  isRetryableStatusCode 600 = true.
Proof. split; [reflexivity |]. split; [lia | reflexivity]. Qed.

(** C1, amended.  The classifier reports a status code retryable when it is
    429, 503, 504 or any code from 500 upwards (no upper end at 599), and
    reports every other code, so every other non-2xx code, terminal. *)
Theorem isRetryableStatusCode_spec (code : Z) :
  (code = 429 \/ code = 503 \/ code = 504 \/ 500 <= code ->
   isRetryableStatusCode code = true) /\
  (~ (code = 429 \/ code = 503 \/ code = 504 \/ 500 <= code) ->
   isRetryableStatusCode code = false).
Proof.
  unfold isRetryableStatusCode, StatusTooManyRequests,
    StatusServiceUnavailable, StatusGatewayTimeout.
  destruct (Z.eqb_spec code 429), (Z.eqb_spec code 503),
    (Z.eqb_spec code 504), (Z.geb_spec code 500); cbn; split; intros; lia || reflexivity.
Qed.

(** ** The retry loop, step by step *)

Lemma sleepsOf_app (l1 l2 : list Event) :
  sleepsOf (l1 ++ l2) = (sleepsOf l1 + sleepsOf l2)%nat.
Proof.
  induction l1 as [| ev l1 IH]; [reflexivity |].
  destruct ev; cbn; rewrite IH; reflexivity.
Qed.

Lemma sleepsOf_closes (n : nat) : sleepsOf (repeat EvClose n) = 0%nat.
Proof. induction n; [reflexivity | assumption]. Qed.

Section Executor.

Variables (E : Env) (c : HttpClient) (req : Request) (attempts : Z).

Lemma execLoop_exit (fuel : nat) (i : Z) (last : option error) (d : nat) (w : World) :
  attempts <= i ->
  execLoop E c req attempts fuel i last d w
  = return_ d (None, Some (exhaustedError attempts last)) w.
Proof.
  intros Hi. destruct fuel; cbn [execLoop];
    destruct (Z.ltb_spec i attempts); (lia || reflexivity).
Qed.

Lemma execLoop_retry (fuel : nat) (i : Z) (last : option error) (d : nat) (w : World) :
  0 <= i -> i < attempts - 1 ->
  outcomeRetryable (client_Do E (sent w) req) = true ->
  exists d' w',
    sent w' = S (sent w) /\
    sleepsOf (events w') = S (sleepsOf (events w)) /\
    execLoop E c req attempts (S fuel) i last d w
    = execLoop E c req attempts fuel (i + 1) (lastErrOf (client_Do E (sent w) req)) d' w'.
Proof.
  intros Hi0 Hi Hretry.
  destruct (calcBackoff_nonneg_attempt (round64 E) (rand_Float64 E (drawn w))
              i (baseDelay c) Hi0) as [dly Hdly].
  cbn [execLoop].
  destruct (Z.ltb_spec i attempts) as [_ | ?]; [| lia].
  destruct (Z.ltb_spec i (attempts - 1)) as [_ | ?]; [| lia].
  unfold bind at 1. unfold Do.
  revert Hretry. unfold outcomeRetryable, lastErrOf.
  destruct (client_Do E (sent w) req) as [resp | err].
  - destruct (ReadAll_err resp) as [rerr |] eqn:Hread.
    + intros _. unfold bind, log, emit, sleepBackoff. cbn [sent drawn events].
      rewrite Hdly. eexists _, _. split; [| split; [| reflexivity]].
      * reflexivity.
      * cbn [events]. rewrite !sleepsOf_app. cbn. lia.
    + intros Hretry. apply andb_true_iff in Hretry as [Hns Hcode].
      rewrite Hns, Hcode. cbn [andb].
      unfold bind, log, emit, sleepBackoff. cbn [sent drawn events].
      rewrite Hdly. eexists _, _. split; [| split; [| reflexivity]].
      * reflexivity.
      * cbn [events]. rewrite !sleepsOf_app. cbn. lia.
  - intros _. unfold bind, log, emit, sleepBackoff. cbn [sent drawn events].
    rewrite Hdly. eexists _, _. split; [| split; [| reflexivity]].
    * reflexivity.
    * cbn [events]. rewrite !sleepsOf_app. cbn. lia.
Qed.

Lemma execLoop_return (fuel : nat) (i : Z) (last : option error) (d : nat) (w : World) :
  i < attempts ->
  attempts - 1 <= i \/ outcomeRetryable (client_Do E (sent w) req) = false ->
  exists w',
    sent w' = S (sent w) /\
    sleepsOf (events w') = sleepsOf (events w) /\
    execLoop E c req attempts (S fuel) i last d w = Done (resultOf (client_Do E (sent w) req)) w'.
Proof.
  intros Hi Hstop.
  cbn [execLoop].
  destruct (Z.ltb_spec i attempts) as [_ | ?]; [| lia].
  unfold bind at 1. unfold Do.
  revert Hstop. unfold outcomeRetryable, resultOf, lastErrOf.
  destruct (client_Do E (sent w) req) as [resp | err].
  - destruct (ReadAll_err resp) as [rerr |] eqn:Hread.
    + intros [Hlast | ?]; [| discriminate].
      destruct (Z.ltb_spec i (attempts - 1)) as [? | _]; [lia |].
      unfold bind, log, emit, return_. cbn [sent drawn events].
      eexists. split; [| split; [| reflexivity]]; [reflexivity |].
      cbn [events]. rewrite !sleepsOf_app, sleepsOf_closes. cbn. lia.
    + intros Hstop.
      destruct (negb (isSuccessStatus (StatusCode resp))) eqn:Hns.
      * assert (Hb : (i <? attempts - 1) && isRetryableStatusCode (StatusCode resp) = false).
        { destruct Hstop as [Hlast | Hcode].
          - destruct (Z.ltb_spec i (attempts - 1)); [lia | reflexivity].
          - cbn in Hcode. rewrite Hcode. apply andb_false_r. }
        rewrite Hb.
        unfold bind, log, emit, return_. cbn [sent drawn events].
        eexists. split; [| split; [| reflexivity]]; [reflexivity |].
        cbn [events]. rewrite !sleepsOf_app, sleepsOf_closes. cbn. lia.
      * unfold bind, log, emit, return_. cbn [sent drawn events].
        eexists. split; [| split; [| reflexivity]]; [reflexivity |].
        cbn [events]. rewrite !sleepsOf_app, sleepsOf_closes. cbn. lia.
  - intros [Hlast | ?]; [| discriminate].
    destruct (Z.ltb_spec i (attempts - 1)) as [? | _]; [lia |].
    unfold return_. cbn [sent drawn events].
    eexists. split; [| split; [| reflexivity]]; [reflexivity |].
    cbn [events]. rewrite !sleepsOf_app, sleepsOf_closes. cbn. lia.
Qed.

Lemma execLoop_retries (k fuel : nat) :
  forall (i : Z) (last : option error) (d : nat) (w : World),
  0 <= i -> i + Z.of_nat k <= attempts - 1 ->
  (forall j, (j < k)%nat ->
             outcomeRetryable (client_Do E (sent w + j) req) = true) ->
  exists last' d' w',
    sent w' = (sent w + k)%nat /\
    sleepsOf (events w') = (sleepsOf (events w) + k)%nat /\
    execLoop E c req attempts (k + fuel) i last d w
    = execLoop E c req attempts fuel (i + Z.of_nat k) last' d' w'.
Proof.
  induction k as [| k IH]; intros i last d w Hi0 Hi Hall.
  - exists last, d, w. rewrite !Nat.add_0_r, Z.add_0_r. auto.
  - assert (H0 : outcomeRetryable (client_Do E (sent w) req) = true).
    { rewrite <- (Nat.add_0_r (sent w)). apply Hall. lia. }
    destruct (execLoop_retry (k + fuel) i last d w Hi0 ltac:(lia) H0)
      as (d1 & w1 & Hsent1 & Hsleep1 & Hstep).
    destruct (IH (i + 1) (lastErrOf (client_Do E (sent w) req)) d1 w1 ltac:(lia) ltac:(lia))
      as (last' & d' & w' & Hsent & Hsleep & Hrun).
    { intros j Hj. rewrite Hsent1.
      replace (S (sent w) + j)%nat with (sent w + S j)%nat by lia.
      apply Hall. lia. }
    exists last', d', w'.
    split; [lia |]. split; [lia |].
    cbn [Nat.add]. rewrite Hstep, Hrun. f_equal. lia.
Qed.

(** The call stops at the first attempt that is the last of the budget or
    whose outcome is not retried. *)
Lemma execReq_stops_at (k : nat) (w : World) :
  Z.of_nat k < attempts ->
  (forall j, (j < k)%nat ->
             outcomeRetryable (client_Do E (sent w + j) req) = true) ->
  Z.of_nat k = attempts - 1
  \/ outcomeRetryable (client_Do E (sent w + k) req) = false ->
  exists w',
    execReq E c req attempts w
    = Done (resultOf (client_Do E (sent w + k) req)) w' /\
    sent w' = (sent w + k + 1)%nat /\
    sleepsOf (events w') = (sleepsOf (events w) + k)%nat.
Proof.
  intros Hk Hall Hstop. unfold execReq.
  replace (Z.to_nat attempts) with (k + S (Z.to_nat attempts - k - 1))%nat by lia.
  destruct (execLoop_retries k (S (Z.to_nat attempts - k - 1)) 0 None 0%nat w
              ltac:(lia) ltac:(lia) Hall)
    as (last' & d' & wk & Hsent & Hsleep & Hrun).
  rewrite Hrun.
  destruct (execLoop_return (Z.to_nat attempts - k - 1) (0 + Z.of_nat k) last' d' wk
              ltac:(lia)) as (w' & Hsent' & Hsleep' & Hret).
  { rewrite Hsent. destruct Hstop as [Hlast | Hno]; [left; lia | right; exact Hno]. }
  exists w'. rewrite Hret, Hsent. split; [reflexivity |]. split; lia.
Qed.

(** Whatever the transport does, the loop returns: with fuel for the
    iterations that remain it neither runs out of fuel nor panics. *)
Lemma execLoop_bounded (fuel : nat) :
  forall (i : Z) (last : option error) (d : nat) (w : World),
  0 <= i -> attempts - i <= Z.of_nat fuel ->
  exists r w',
    execLoop E c req attempts fuel i last d w = Done r w' /\
    (sent w <= sent w')%nat /\
    Z.of_nat (sent w' - sent w) <= Z.max 0 (attempts - i) /\
    forall j, (j < sent w' - sent w)%nat ->
              outcomeRetryable (client_Do E (sent w + j) req) = false ->
              sent w' = (sent w + j + 1)%nat.
Proof.
  induction fuel as [| fuel IH]; intros i last d w Hi0 Hfuel.
  - rewrite execLoop_exit by lia. unfold return_. eexists _, _.
    split; [reflexivity |]. cbn [sent]. repeat split; try lia.
  - destruct (Z.le_gt_cases attempts i) as [Hout | Hin].
    { rewrite execLoop_exit by lia. unfold return_. eexists _, _.
      split; [reflexivity |]. cbn [sent]. repeat split; try lia. }
    destruct (outcomeRetryable (client_Do E (sent w) req)) eqn:Hretry;
      [destruct (Z.lt_ge_cases i (attempts - 1)) as [Hmore | Hlast] |].
    + destruct (execLoop_retry fuel i last d w Hi0 Hmore Hretry)
        as (d1 & w1 & Hsent1 & _ & Hstep).
      destruct (IH (i + 1) (lastErrOf (client_Do E (sent w) req)) d1 w1 ltac:(lia) ltac:(lia))
        as (r & w' & Hrun & Hle & Hcount & Hstopped).
      exists r, w'. rewrite Hstep, Hrun.
      split; [reflexivity |]. split; [lia |]. split; [lia |].
      intros [| j] Hj Hno.
      * rewrite Nat.add_0_r in Hno. congruence.
      * specialize (Hstopped j ltac:(lia)). rewrite Hsent1 in Hstopped.
        replace (S (sent w) + j)%nat with (sent w + S j)%nat in Hstopped by lia.
        specialize (Hstopped Hno). lia.
    + destruct (execLoop_return fuel i last d w Hin ltac:(left; lia))
        as (w' & Hsent' & _ & Hret).
      eexists _, w'. split; [exact Hret |].
      split; [lia |]. split; [lia |]. intros j Hj _. lia.
    + destruct (execLoop_return fuel i last d w Hin ltac:(right; exact Hretry))
        as (w' & Hsent' & _ & Hret).
      eexists _, w'. split; [exact Hret |].
      split; [lia |]. split; [lia |]. intros j Hj _. lia.
Qed.

Lemma execReq_returns (w : World) :
  exists r w', execReq E c req attempts w = Done r w'.
Proof.
  destruct (execLoop_bounded (Z.to_nat attempts) 0 None 0%nat w ltac:(lia) ltac:(lia))
    as (r & w' & Hrun & _).
  exists r, w'. exact Hrun.
Qed.

End Executor.

Lemma transportFailure_retryable (o : Response + error) :
  transportFailure o = true -> outcomeRetryable o = true.
Proof.
  destruct o as [resp | err]; cbn; [| reflexivity].
  destruct (ReadAll_err resp); [reflexivity | discriminate].
Qed.

(** A transport-class failure is returned under the prefix that tells where
    it happened: "request failed: " for [Do], "reading response: " for the
    body. *)
Lemma transportFailure_wrapped (o : Response + error) :
  transportFailure o = true ->
  exists cause,
    failureCause o = Some cause /\
    resultOf o
    = (None,
       Some (wrapError
               ((match o with
                 | inr _ => "request failed: "
                 | inl _ => "reading response: "
                 end) +:+ Error cause) cause)).
Proof.
  destruct o as [resp | err]; unfold resultOf, lastErrOf; cbn.
  - destruct (ReadAll_err resp) as [rerr |]; [| discriminate].
    intros _. exists rerr. split; reflexivity.
  - intros _. exists err. split; reflexivity.
Qed.

(** Neither prefix begins a message of the error made after the loop. *)
Lemma wrapped_message_names_no_count
    (o : Response + error) (msg : string) (m : Z) (last : option error) :
  (match o with
   | inr _ => "request failed: "
   | inl _ => "reading response: "
   end) +:+ msg
  <> Error (exhaustedError m last).
Proof.
  unfold exhaustedError, Error. destruct o; cbn; intros H; discriminate H.
Qed.

(** ** Properties of the request executor *)

(** C6.  When the first [k] attempts fail at the transport and attempt
    [k < N] brings a 2xx response with some body, the call makes exactly
    [k+1] attempts and returns that body with a nil error. *)
Theorem execReq_succeeds_after_failures
    (E : Env) (c : HttpClient) (req : Request) (k n : nat) (w : World)
    (resp : Response) :
  (k < n)%nat ->
  (forall j, (j < k)%nat ->
             transportFailure (client_Do E (sent w + j) req) = true) ->
  client_Do E (sent w + k) req = inl resp ->
  ReadAll_err resp = None ->
  isSuccessStatus (StatusCode resp) = true ->
  exists w',
    execReq E c req (Z.of_nat n) w = Done (Some (ReadAll_data resp), None) w' /\
    sent w' = (sent w + k + 1)%nat.
Proof.
  intros Hk Hfail Hresp Hread Hok.
  destruct (execReq_stops_at E c req (Z.of_nat n) k w ltac:(lia))
    as (w' & Hrun & Hsent & _).
  - intros j Hj. apply transportFailure_retryable, Hfail, Hj.
  - right. rewrite Hresp. cbn. rewrite Hread, Hok. reflexivity.
  - exists w'. split; [| exact Hsent].
    rewrite Hrun, Hresp. unfold resultOf, lastErrOf. rewrite Hread, Hok. reflexivity.
Qed.

Lemma execReq_succeeds_after_failures_witness :
  exists w',
    execReq envFlaky NewHttpClient request0 (Z.of_nat 3) world0
    = Done (Some (list_byte_of_string "ok"), None) w' /\
    sent w' = (sent world0 + 2 + 1)%nat.
Proof.
  apply (execReq_succeeds_after_failures envFlaky NewHttpClient request0 2 3 world0
           {| StatusCode := 200; ReadAll_data := list_byte_of_string "ok";
              ReadAll_err := None |}).
  - lia.
  - intros [| [| j]] Hj; [reflexivity | reflexivity | lia].
  - reflexivity.
  - reflexivity.
  - reflexivity.
Defined.

(** C7.  A non-2xx status that the classifier does not accept, received on
    the first attempt, ends the call after exactly one attempt and no
    sleep, with a [RequestError] that carries the status code and the bytes
    of the response body unchanged. *)
Theorem execReq_terminal_status
    (E : Env) (c : HttpClient) (req : Request) (attempts : Z) (w : World)
    (resp : Response) :
  1 <= attempts ->
  client_Do E (sent w) req = inl resp ->
  ReadAll_err resp = None ->
  isSuccessStatus (StatusCode resp) = false ->
  isRetryableStatusCode (StatusCode resp) = false ->
  exists body w',
    execReq E c req attempts w
    = Done (None, Some (RequestError (StatusCode resp) body None)) w' /\
    list_byte_of_string body = ReadAll_data resp /\
    sent w' = (sent w + 1)%nat /\
    sleepsOf (events w') = sleepsOf (events w).
Proof.
  intros Hn Hresp Hread Hns Hterm.
  destruct (execReq_stops_at E c req attempts 0 w ltac:(lia))
    as (w' & Hrun & Hsent & Hsleep).
  - intros j Hj. lia.
  - right. rewrite Nat.add_0_r, Hresp. cbn. rewrite Hread, Hterm. apply andb_false_r.
  - exists (string_of_list_byte (ReadAll_data resp)), w'.
    rewrite Nat.add_0_r, Hresp in Hrun.
    unfold resultOf, lastErrOf in Hrun. rewrite Hread, Hns in Hrun. cbn in Hrun.
    split; [exact Hrun |].
    split; [apply list_byte_of_string_of_list_byte |]. split; lia.
Qed.

Lemma execReq_terminal_status_witness :
  exists body w',
    execReq env404 NewHttpClient request0 3 world0
    = Done (None, Some (RequestError 404 body None)) w' /\
    list_byte_of_string body = list_byte_of_string "no such item" /\
    sent w' = (sent world0 + 1)%nat /\
    sleepsOf (events w') = sleepsOf (events world0).
Proof.
  apply (execReq_terminal_status env404 NewHttpClient request0 3 world0
           {| StatusCode := 404; ReadAll_data := list_byte_of_string "no such item";
              ReadAll_err := None |}).
  - lia.
  - reflexivity.
  - reflexivity.
  - reflexivity.
  - reflexivity.
Defined.

(** C5, as stated, fails: with a budget of 3 and every connection refused
    the call makes 3 attempts, and the error it returns is the last failure
    under the prefix "request failed: "; it is not the error "request
    failed after 3 attempts: ..." and names no attempt count. *)
Lemma execReq_all_fail_returns_last_error :
  exists e w',
    execReq envRefused NewHttpClient request0 3 world0 = Done (None, Some e) w' /\
    sent w' = 3%nat /\
    Error e = "request failed: dial tcp: connection refused" /\
    forall last, e <> exhaustedError 3 last.
Proof.
  eexists _, _. split; [vm_compute; reflexivity |].
  split; [reflexivity |]. split; [reflexivity |].
  intros last. discriminate.
Qed.

(** C5, amended.  For a budget [N >= 1], when every attempt fails at the
    transport the call makes exactly [N] attempts and returns the failure
    of the last attempt, wrapped under the prefix "request failed: " when
    [Do] failed and "reading response: " when the body could not be read.
    The returned error references that failure and does not summarize the
    attempt count: it is not the error made after the loop, and its message
    is not a message "request failed after M attempts: ..." for any [M]. *)
Theorem execReq_all_attempts_fail
    (E : Env) (c : HttpClient) (req : Request) (n : nat) (w : World) :
  (1 <= n)%nat ->
  (forall j, (j < n)%nat ->
             transportFailure (client_Do E (sent w + j) req) = true) ->
  exists prefix cause w',
    execReq E c req (Z.of_nat n) w
    = Done (None, Some (wrapError (prefix +:+ Error cause) cause)) w' /\
    failureCause (client_Do E (sent w + (n - 1)) req) = Some cause /\
    prefix = match client_Do E (sent w + (n - 1)) req with
             | inr _ => "request failed: "%string
             | inl _ => "reading response: "%string
             end /\
    sent w' = (sent w + n)%nat /\
    (forall last,
       wrapError (prefix +:+ Error cause) cause
       <> exhaustedError (Z.of_nat n) last) /\
    (forall m last,
       Error (wrapError (prefix +:+ Error cause) cause)
       <> Error (exhaustedError m last)).
Proof.
  intros Hn Hfail.
  destruct (execReq_stops_at E c req (Z.of_nat n) (n - 1) w ltac:(lia))
    as (w' & Hrun & Hsent & _).
  - intros j Hj. apply transportFailure_retryable, Hfail. lia.
  - left. lia.
  - destruct (transportFailure_wrapped (client_Do E (sent w + (n - 1)) req))
      as (cause & Hcause & Hres).
    { apply Hfail. lia. }
    eexists _, cause, w'. rewrite Hrun, Hres.
    split; [reflexivity |]. split; [exact Hcause |]. split; [reflexivity |].
    split; [lia |]. split.
    + intros last. discriminate.
    + intros m last. cbn [Error]. apply wrapped_message_names_no_count.
Qed.

Lemma execReq_all_attempts_fail_witness :
  exists prefix cause w',
    execReq envRefused NewHttpClient request0 (Z.of_nat 3) world0
    = Done (None, Some (wrapError (prefix +:+ Error cause) cause)) w' /\
    failureCause (client_Do envRefused (sent world0 + (3 - 1)) request0) = Some cause /\
    prefix = match client_Do envRefused (sent world0 + (3 - 1)) request0 with
             | inr _ => "request failed: "%string
             | inl _ => "reading response: "%string
             end /\
    sent w' = (sent world0 + 3)%nat /\
    (forall last,
       wrapError (prefix +:+ Error cause) cause
       <> exhaustedError (Z.of_nat 3) last) /\
    (forall m last,
       Error (wrapError (prefix +:+ Error cause) cause)
       <> Error (exhaustedError m last)).
Proof.
  apply (execReq_all_attempts_fail envRefused NewHttpClient request0 3 world0).
  - lia.
  - intros j Hj. reflexivity.
Defined.




(** ** Properties of the method builders *)

Section BuilderHeaders.

Variable Context : Type.
Variable Payload : Type.
Variable Values : Type.
Variable json_Marshal : Payload -> list Byte.byte + error.
Variable Values_Encode : Values -> string.
Variable NewRequestWithContext :
  Context -> string -> string -> option (list Byte.byte) -> Request + error.
Variable canon : string -> string.
Variable range : gmap string string -> list (string * string).
Hypothesis range_visits : visits_each_entry_once range.

Lemma Header_Set_loop_fields (l : list (string * string)) (req : Request) :
  let req' := foldl (fun r kv => Header_Set canon r kv.1 kv.2) req l in
  Method req' = Method req /\ URL req' = URL req /\ Body req' = Body req.
Proof.
  revert req. induction l as [| [k v] l IH]; intros req; cbn; [auto |].
  destruct (IH (Header_Set canon req k v)) as (Hm & Hu & Hb).
  cbn in Hm, Hu, Hb. auto.
Qed.

Lemma Header_Set_loop_last (l : list (string * string)) (req : Request) (K : string) :
  (exists k v, (k, v) ∈ l /\ canon k = K) ->
  exists k v, (k, v) ∈ l /\ canon k = K /\
    Header (foldl (fun r kv => Header_Set canon r kv.1 kv.2) req l) !! K = Some [v].
Proof.
  induction l as [| [k0 v0] l IH] using rev_ind; intros (k & v & Hin & Hk).
  - inversion Hin.
  - rewrite foldl_app. cbn.
    destruct (decide (canon k0 = K)) as [Heq | Hne].
    + exists k0, v0.
      split; [apply elem_of_app; right; apply list_elem_of_singleton; reflexivity |].
      split; [exact Heq |].
      rewrite Heq. apply lookup_insert_eq.
    + rewrite lookup_insert_ne by exact Hne.
      apply elem_of_app in Hin as [Hin | Hin].
      * destruct IH as (k' & v' & Hin' & Hk' & Hlook); [eauto |].
        exists k', v'. split; [apply elem_of_app; left; exact Hin' | auto].
      * apply list_elem_of_singleton in Hin. congruence.
Qed.

Lemma rangeSet_fields (req : Request) (headers : gmap string string) :
  Method (rangeSet canon range req headers) = Method req /\
  URL (rangeSet canon range req headers) = URL req /\
  Body (rangeSet canon range req headers) = Body req.
Proof. apply (Header_Set_loop_fields (range headers)). Qed.

Ltac assembled_fields :=
  lazymatch goal with
  | |- Method (rangeSet _ _ ?r ?h) = _ /\ _ =>
      destruct (rangeSet_fields r h) as (Hm & Hu & Hb);
      rewrite Hm, Hu, Hb; cbn; auto
  end.

Lemma rangeSet_carries (req : Request) (headers : gmap string string) (k v : string) :
  headers !! k = Some v ->
  carriesCallerValue canon headers (canon k) k v (rangeSet canon range req headers).
Proof.
  intros Hk. unfold carriesCallerValue, rangeSet.
  assert (Hin : forall k' v', (k', v') ∈ range headers <-> headers !! k' = Some v').
  { intros k' v'. rewrite (range_visits headers). apply elem_of_map_to_list. }
  destruct (Header_Set_loop_last (range headers) req (canon k)) as (k' & v' & Hin' & Hk' & Hlook).
  { exists k, v. split; [apply Hin, Hk | reflexivity]. }
  apply Hin in Hin'.
  split.
  - exists k', v'. auto.
  - intros Hunique.
    assert (k' = k) as -> by (apply Hunique; [rewrite Hin'; eauto | exact Hk']).
    congruence.
Qed.

(** C9.  When the caller's map has a key [k] that collides with the
    default [Content-Type] of a builder (it has the same canonical form),
    the request that [PostJsonReq], [PutJsonReq], [PatchJsonReq] and
    [PostFormReq] assemble carries a caller's value under that header
    (the value of [k] when no other key of the caller collides), not the
    default; the builder hands that request to [execReq] with
    [c.maxAttempts], and its result is the result of [execReq]. *)
Theorem builders_caller_headers_win
    (E : Env) (c : HttpClient) (ctx : Context) (url : string)
    (headers : gmap string string) (k v : string) :
  headers !! k = Some v ->
  canon k = canon "Content-Type" ->
  (forall payload jsonBody req0,
      json_Marshal payload = inl jsonBody ->
      NewRequestWithContext ctx MethodPost url (Some jsonBody) = inl req0 ->
      exists req,
        PostJsonReq Context Payload json_Marshal NewRequestWithContext canon
                    range E c ctx url payload headers
        = execReq E c req (maxAttempts c) /\
        carriesCallerValue canon headers (canon "Content-Type") k v req /\
        Method req = Method req0 /\ URL req = URL req0 /\ Body req = Body req0) /\
  (forall payload jsonBody req0,
      json_Marshal payload = inl jsonBody ->
      NewRequestWithContext ctx MethodPut url (Some jsonBody) = inl req0 ->
      exists req,
        PutJsonReq Context Payload json_Marshal NewRequestWithContext canon
                   range E c ctx url payload headers
        = execReq E c req (maxAttempts c) /\
        carriesCallerValue canon headers (canon "Content-Type") k v req /\
        Method req = Method req0 /\ URL req = URL req0 /\ Body req = Body req0) /\
  (forall payload jsonBody req0,
      json_Marshal payload = inl jsonBody ->
      NewRequestWithContext ctx MethodPatch url (Some jsonBody) = inl req0 ->
      exists req,
        PatchJsonReq Context Payload json_Marshal NewRequestWithContext canon
                     range E c ctx url payload headers
        = execReq E c req (maxAttempts c) /\
        carriesCallerValue canon headers (canon "Content-Type") k v req /\
        Method req = Method req0 /\ URL req = URL req0 /\ Body req = Body req0) /\
  (forall formData req0,
      NewRequestWithContext ctx MethodPost url
        (Some (list_byte_of_string (Values_Encode formData))) = inl req0 ->
      exists req,
        PostFormReq Context Values Values_Encode NewRequestWithContext canon
                    range E c ctx url formData headers
        = execReq E c req (maxAttempts c) /\
        carriesCallerValue canon headers (canon "Content-Type") k v req /\
        Method req = Method req0 /\ URL req = URL req0 /\ Body req = Body req0).
Proof.
  intros Hk Hcollide.
  repeat split.
  - intros payload jsonBody req0 Hjson Hnew.
    unfold PostJsonReq. rewrite Hjson, Hnew.
    eexists. split; [reflexivity |].
    split; [rewrite <- Hcollide; apply rangeSet_carries, Hk |].
    assembled_fields.
  - intros payload jsonBody req0 Hjson Hnew.
    unfold PutJsonReq. rewrite Hjson, Hnew.
    eexists. split; [reflexivity |].
    split; [rewrite <- Hcollide; apply rangeSet_carries, Hk |].
    assembled_fields.
  - intros payload jsonBody req0 Hjson Hnew.
    unfold PatchJsonReq. rewrite Hjson, Hnew.
    eexists. split; [reflexivity |].
    split; [rewrite <- Hcollide; apply rangeSet_carries, Hk |].
    assembled_fields.
  - intros formData req0 Hnew.
    unfold PostFormReq. cbv zeta. rewrite Hnew.
    eexists. split; [reflexivity |].
    split; [rewrite <- Hcollide; apply rangeSet_carries, Hk |].
    assembled_fields.
Qed.

End BuilderHeaders.

Lemma map_to_list_visits : visits_each_entry_once map_to_list.
Proof. intros m. reflexivity. Defined.

Lemma builders_caller_headers_win_witness :
  exists req,
    PostJsonReq unit string sampleMarshal sampleNewRequest sampleCanon
                map_to_list envFlaky NewHttpClient tt "http://upstream/items"
                "[1]" sampleHeaders
    = execReq envFlaky NewHttpClient req (maxAttempts NewHttpClient) /\
    carriesCallerValue sampleCanon sampleHeaders (sampleCanon "Content-Type")
                       "content-type" "text/plain" req /\
    Method req = MethodPost /\ URL req = "http://upstream/items" /\
    Body req = Some (list_byte_of_string "[1]").
Proof.
  destruct (builders_caller_headers_win unit string string sampleMarshal
              (fun s => s) sampleNewRequest sampleCanon map_to_list
              map_to_list_visits envFlaky NewHttpClient tt
              "http://upstream/items" sampleHeaders "content-type" "text/plain")
    as [Hpost _].
  - apply lookup_singleton_eq.
  - reflexivity.
  - apply (Hpost "[1]"%string (list_byte_of_string "[1]")
                 {| Method := MethodPost; URL := "http://upstream/items";
                    Header := ∅; Body := Some (list_byte_of_string "[1]") |}).
    + reflexivity.
    + reflexivity.
Defined.

(** ** More on the request executor *)

Lemma closesOf_app (l1 l2 : list Event) :
  closesOf (l1 ++ l2) = (closesOf l1 + closesOf l2)%nat.
Proof.
  induction l1 as [| ev l1 IH]; [reflexivity |].
  destruct ev; cbn; rewrite IH; reflexivity.
Qed.

Lemma closesOf_closes (n : nat) : closesOf (repeat EvClose n) = n.
Proof. induction n as [| n IH]; [reflexivity | cbn; rewrite IH; reflexivity]. Qed.

Lemma sleepDurations_app (l1 l2 : list Event) :
  sleepDurations (l1 ++ l2) = sleepDurations l1 ++ sleepDurations l2.
Proof.
  induction l1 as [| ev l1 IH]; [reflexivity |].
  destruct ev; cbn; rewrite IH; reflexivity.
Qed.

Lemma sleepDurations_closes (n : nat) : sleepDurations (repeat EvClose n) = [].
Proof. induction n; [reflexivity | assumption]. Qed.

Section ExecutorTrace.

Variables (E : Env) (c : HttpClient) (req : Request) (attempts : Z).

Lemma execLoop_exit_trace (fuel : nat) (i : Z) (last : option error) (d : nat) (w : World) :
  attempts <= i ->
  execLoop E c req attempts fuel i last d w
  = Done (None, Some (exhaustedError attempts last))
         {| sent := sent w; drawn := drawn w;
            events := events w ++ repeat EvClose d |}.
Proof. intros Hi. rewrite execLoop_exit by exact Hi. reflexivity. Qed.

Lemma execLoop_retry_trace (fuel : nat) (i : Z) (last : option error) (d : nat) (w : World) :
  0 <= i -> i < attempts - 1 ->
  outcomeRetryable (client_Do E (sent w) req) = true ->
  exists dly w',
    calcBackoff (round64 E) (rand_Float64 E (drawn w)) i (baseDelay c) = Some dly /\
    sent w' = S (sent w) /\
    sleepDurations (events w') = sleepDurations (events w) ++ [dly] /\
    closesOf (events w') = closesOf (events w) /\
    execLoop E c req attempts (S fuel) i last d w
    = execLoop E c req attempts fuel (i + 1)
        (lastErrOf (client_Do E (sent w) req))
        (received (client_Do E (sent w) req) + d) w'.
Proof.
  intros Hi0 Hi Hretry.
  destruct (calcBackoff_nonneg_attempt (round64 E) (rand_Float64 E (drawn w))
              i (baseDelay c) Hi0) as [dly Hdly].
  exists dly.
  cbn [execLoop].
  destruct (Z.ltb_spec i attempts) as [_ | ?]; [| lia].
  destruct (Z.ltb_spec i (attempts - 1)) as [_ | ?]; [| lia].
  unfold bind at 1. unfold Do.
  revert Hretry. unfold outcomeRetryable, lastErrOf, received.
  destruct (client_Do E (sent w) req) as [resp | err].
  - destruct (ReadAll_err resp) as [rerr |] eqn:Hread.
    + intros _. unfold bind, log, emit, sleepBackoff. cbn [sent drawn events].
      rewrite Hdly. eexists. split; [reflexivity |].
      split; [| split; [| split; [| reflexivity]]]; cbn [sent events].
      * reflexivity.
      * rewrite !sleepDurations_app. cbn. rewrite !app_nil_r. reflexivity.
      * rewrite !closesOf_app. cbn. lia.
    + intros Hretry. apply andb_true_iff in Hretry as [Hns Hcode].
      rewrite Hns, Hcode. cbn [andb].
      unfold bind, log, emit, sleepBackoff. cbn [sent drawn events].
      rewrite Hdly. eexists. split; [reflexivity |].
      split; [| split; [| split; [| reflexivity]]]; cbn [sent events].
      * reflexivity.
      * rewrite !sleepDurations_app. cbn. rewrite !app_nil_r. reflexivity.
      * rewrite !closesOf_app. cbn. lia.
  - intros _. unfold bind, log, emit, sleepBackoff. cbn [sent drawn events].
    rewrite Hdly. eexists. split; [reflexivity |].
    split; [| split; [| split; [| reflexivity]]]; cbn [sent events].
    + reflexivity.
    + rewrite !sleepDurations_app. cbn. rewrite !app_nil_r. reflexivity.
    + rewrite !closesOf_app. cbn. lia.
Qed.

Lemma execLoop_return_trace (fuel : nat) (i : Z) (last : option error) (d : nat) (w : World) :
  i < attempts ->
  attempts - 1 <= i \/ outcomeRetryable (client_Do E (sent w) req) = false ->
  exists pre,
    closesOf pre = closesOf (events w) /\
    sleepDurations pre = sleepDurations (events w) /\
    execLoop E c req attempts (S fuel) i last d w
    = Done (resultOf (client_Do E (sent w) req))
           {| sent := S (sent w); drawn := drawn w;
              events := pre ++ repeat EvClose
                                 (received (client_Do E (sent w) req) + d) |}.
Proof.
  intros Hi Hstop.
  cbn [execLoop].
  destruct (Z.ltb_spec i attempts) as [_ | ?]; [| lia].
  unfold bind at 1. unfold Do.
  revert Hstop. unfold outcomeRetryable, resultOf, lastErrOf, received.
  destruct (client_Do E (sent w) req) as [resp | err].
  - destruct (ReadAll_err resp) as [rerr |] eqn:Hread.
    + intros [Hlast | ?]; [| discriminate].
      destruct (Z.ltb_spec i (attempts - 1)) as [? | _]; [lia |].
      unfold bind, log, emit, return_. cbn [sent drawn events].
      eexists. split; [| split; [| reflexivity]].
      * rewrite !closesOf_app. cbn. lia.
      * rewrite !sleepDurations_app. cbn. rewrite !app_nil_r. reflexivity.
    + intros Hstop.
      destruct (negb (isSuccessStatus (StatusCode resp))) eqn:Hns.
      * assert (Hb : (i <? attempts - 1) && isRetryableStatusCode (StatusCode resp) = false).
        { destruct Hstop as [Hlast | Hcode].
          - destruct (Z.ltb_spec i (attempts - 1)); [lia | reflexivity].
          - cbn in Hcode. rewrite Hcode. apply andb_false_r. }
        rewrite Hb.
        unfold bind, log, emit, return_. cbn [sent drawn events].
        eexists. split; [| split; [| reflexivity]].
        -- rewrite !closesOf_app. cbn. lia.
        -- rewrite !sleepDurations_app. cbn. rewrite !app_nil_r. reflexivity.
      * unfold bind, log, emit, return_. cbn [sent drawn events].
        eexists. split; [| split; [| reflexivity]].
        -- rewrite !closesOf_app. cbn. lia.
        -- rewrite !sleepDurations_app. cbn. rewrite !app_nil_r. reflexivity.
  - intros [Hlast | ?]; [| discriminate].
    destruct (Z.ltb_spec i (attempts - 1)) as [? | _]; [lia |].
    unfold return_. cbn [sent drawn events].
    eexists. split; [| split; [| reflexivity]].
    * rewrite !closesOf_app. cbn. lia.
    * rewrite !sleepDurations_app. cbn. rewrite !app_nil_r. reflexivity.
Qed.

(** The loop from iteration [i]: it stops at the first attempt that is the
    last of the budget or whose outcome is not retried, and returns what
    that attempt gives. *)
Lemma execLoop_last_attempt (fuel : nat) :
  forall (i : Z) (last : option error) (d : nat) (w : World),
  0 <= i -> i < attempts -> attempts - i <= Z.of_nat fuel ->
  exists k w',
    execLoop E c req attempts fuel i last d w
    = Done (resultOf (client_Do E (sent w + k) req)) w' /\
    sent w' = (sent w + k + 1)%nat /\
    sleepsOf (events w') = (sleepsOf (events w) + k)%nat /\
    i + Z.of_nat k < attempts /\
    (forall j, (j < k)%nat ->
               outcomeRetryable (client_Do E (sent w + j) req) = true) /\
    (i + Z.of_nat k = attempts - 1
     \/ outcomeRetryable (client_Do E (sent w + k) req) = false).
Proof.
  induction fuel as [| fuel IH]; intros i last d w Hi0 Hin Hfuel; [lia |].
  destruct (outcomeRetryable (client_Do E (sent w) req)) eqn:Hretry;
    [destruct (Z.lt_ge_cases i (attempts - 1)) as [Hmore | Hlast] |].
  - destruct (execLoop_retry E c req attempts fuel i last d w Hi0 Hmore Hretry)
      as (d1 & w1 & Hsent1 & Hsleep1 & Hstep).
    destruct (IH (i + 1) (lastErrOf (client_Do E (sent w) req)) d1 w1
                ltac:(lia) ltac:(lia) ltac:(lia))
      as (k & w' & Hrun & Hsent & Hsleep & Hk & Hall & Hstop).
    rewrite Hsent1 in *.
    exists (S k), w'.
    replace (sent w + S k)%nat with (S (sent w) + k)%nat by lia.
    rewrite Hstep, Hrun.
    split; [reflexivity |]. split; [lia |]. split; [lia |]. split; [lia |].
    split; [| destruct Hstop as [Hl | Hn]; [left; lia | right; exact Hn]].
    intros [| j] Hj.
    + rewrite Nat.add_0_r. exact Hretry.
    + replace (sent w + S j)%nat with (S (sent w) + j)%nat by lia.
      apply Hall. lia.
  - destruct (execLoop_return E c req attempts fuel i last d w Hin ltac:(left; lia))
      as (w' & Hsent' & Hsleep' & Hret).
    exists 0%nat, w'. rewrite Nat.add_0_r, Z.add_0_r, Hret.
    split; [reflexivity |]. split; [lia |]. split; [lia |]. split; [lia |].
    split; [intros j Hj; lia | left; lia].
  - destruct (execLoop_return E c req attempts fuel i last d w Hin
                ltac:(right; exact Hretry)) as (w' & Hsent' & Hsleep' & Hret).
    exists 0%nat, w'. rewrite Nat.add_0_r, Z.add_0_r, Hret.
    split; [reflexivity |]. split; [lia |]. split; [lia |]. split; [lia |].
    split; [intros j Hj; lia | right; exact Hretry].
Qed.

(** Bodies are closed when the call returns, and not before: the trace ends
    with one [Close] for every response received and every deferred one. *)
Lemma execLoop_closes (fuel : nat) :
  forall (i : Z) (last : option error) (d : nat) (w : World),
  0 <= i -> attempts - i <= Z.of_nat fuel ->
  exists r w' pre,
    execLoop E c req attempts fuel i last d w = Done r w' /\
    (sent w <= sent w')%nat /\
    events w' = pre ++ repeat EvClose
                  (d + responsesReceived E req (sent w) (sent w' - sent w)) /\
    closesOf pre = closesOf (events w).
Proof.
  induction fuel as [| fuel IH]; intros i last d w Hi0 Hfuel.
  - rewrite execLoop_exit_trace by lia. eexists _, _, (events w).
    split; [reflexivity |]. cbn [sent events]. rewrite Nat.sub_diag. cbn.
    rewrite Nat.add_0_r. auto.
  - destruct (Z.le_gt_cases attempts i) as [Hout | Hin].
    { rewrite execLoop_exit_trace by lia. eexists _, _, (events w).
      split; [reflexivity |]. cbn [sent events]. rewrite Nat.sub_diag. cbn.
      rewrite Nat.add_0_r. auto. }
    destruct (outcomeRetryable (client_Do E (sent w) req)) eqn:Hretry;
      [destruct (Z.lt_ge_cases i (attempts - 1)) as [Hmore | Hlast] |].
    + destruct (execLoop_retry_trace fuel i last d w Hi0 Hmore Hretry)
        as (dly & w1 & _ & Hsent1 & _ & Hclose1 & Hstep).
      destruct (IH (i + 1) (lastErrOf (client_Do E (sent w) req))
                  (received (client_Do E (sent w) req) + d)%nat w1
                  ltac:(lia) ltac:(lia))
        as (r & w' & pre & Hrun & Hle & Hev & Hpre).
      exists r, w', pre. rewrite Hstep, Hrun.
      split; [reflexivity |]. split; [lia |]. split; [| congruence].
      rewrite Hev, Hsent1. do 2 f_equal.
      replace (sent w' - sent w)%nat with (S (sent w' - S (sent w)))%nat by lia.
      cbn [responsesReceived]. lia.
    + destruct (execLoop_return_trace fuel i last d w Hin ltac:(left; lia))
        as (pre & Hpre & _ & Hret).
      eexists _, _, pre. split; [exact Hret |]. cbn [sent events].
      split; [lia |]. split; [| exact Hpre].
      replace (S (sent w) - sent w)%nat with 1%nat by lia.
      cbn [responsesReceived]. do 2 f_equal. lia.
    + destruct (execLoop_return_trace fuel i last d w Hin ltac:(right; exact Hretry))
        as (pre & Hpre & _ & Hret).
      eexists _, _, pre. split; [exact Hret |]. cbn [sent events].
      split; [lia |]. split; [| exact Hpre].
      replace (S (sent w) - sent w)%nat with 1%nat by lia.
      cbn [responsesReceived]. do 2 f_equal. lia.
Qed.

(** The sleeps of the loop, when no nominal delay of the budget overflows:
    the sleep after attempt [j] lasts [min (baseDelay * 2^j) (30 seconds)]. *)
Lemma execLoop_sleeps (fuel : nat) :
  rounds_inside (round64 E) ->
  (forall n, (0 <= rand_Float64 E n < 1)%Q) ->
  (forall j, 0 <= j < attempts - 1 ->
             minInt64 <= baseDelay c * 2 ^ j <= maxInt64) ->
  forall (i : Z) (last : option error) (d : nat) (w : World),
  0 <= i -> attempts - i <= Z.of_nat fuel ->
  exists r w',
    execLoop E c req attempts fuel i last d w = Done r w' /\
    (sent w <= sent w')%nat /\
    (i < attempts -> (sent w < sent w')%nat) /\
    sleepDurations (events w')
    = sleepDurations (events w)
      ++ map (fun j => Z.min (baseDelay c * 2 ^ (i + Z.of_nat j)) (30 * Second))
             (seq 0 (sent w' - sent w - 1)).
Proof.
  intros Hfl Hrnd Hrange.
  induction fuel as [| fuel IH]; intros i last d w Hi0 Hfuel.
  - rewrite execLoop_exit_trace by lia. eexists _, _.
    split; [reflexivity |]. cbn [sent events].
    split; [lia |]. split; [lia |].
    rewrite sleepDurations_app, sleepDurations_closes, Nat.sub_diag. reflexivity.
  - destruct (Z.le_gt_cases attempts i) as [Hout | Hin].
    { rewrite execLoop_exit_trace by lia. eexists _, _.
      split; [reflexivity |]. cbn [sent events].
      split; [lia |]. split; [lia |].
      rewrite sleepDurations_app, sleepDurations_closes, Nat.sub_diag. reflexivity. }
    destruct (outcomeRetryable (client_Do E (sent w) req)) eqn:Hretry;
      [destruct (Z.lt_ge_cases i (attempts - 1)) as [Hmore | Hlast] |].
    + destruct (execLoop_retry_trace fuel i last d w Hi0 Hmore Hretry)
        as (dly & w1 & Hdly & Hsent1 & Hsleep1 & _ & Hstep).
      rewrite (calcBackoff_in_range _ _ _ _ Hfl (Hrnd _) Hi0 (Hrange i ltac:(lia)))
        in Hdly.
      injection Hdly as <-.
      destruct (IH (i + 1) (lastErrOf (client_Do E (sent w) req))
                  (received (client_Do E (sent w) req) + d)%nat w1
                  ltac:(lia) ltac:(lia))
        as (r & w' & Hrun & Hle & Hlt & Hev).
      specialize (Hlt ltac:(lia)).
      exists r, w'. rewrite Hstep, Hrun.
      split; [reflexivity |]. split; [lia |]. split; [lia |].
      rewrite Hev, Hsleep1, Hsent1, <- app_assoc. f_equal.
      replace (sent w' - sent w - 1)%nat with (S (sent w' - S (sent w) - 1))%nat by lia.
      cbn [seq map app]. rewrite Z.add_0_r. f_equal.
      rewrite <- seq_shift, map_map.
      apply map_ext. intros j.
      replace (i + 1 + Z.of_nat j) with (i + Z.of_nat (S j)) by lia. reflexivity.
    + destruct (execLoop_return_trace fuel i last d w Hin ltac:(left; lia))
        as (pre & _ & Hpre & Hret).
      eexists _, _. split; [exact Hret |]. cbn [sent events].
      split; [lia |]. split; [lia |].
      rewrite sleepDurations_app, sleepDurations_closes, Hpre.
      replace (S (sent w) - sent w - 1)%nat with 0%nat by lia. reflexivity.
    + destruct (execLoop_return_trace fuel i last d w Hin ltac:(right; exact Hretry))
        as (pre & _ & Hpre & Hret).
      eexists _, _. split; [exact Hret |]. cbn [sent events].
      split; [lia |]. split; [lia |].
      rewrite sleepDurations_app, sleepDurations_closes, Hpre.
      replace (S (sent w) - sent w - 1)%nat with 0%nat by lia. reflexivity.
Qed.

End ExecutorTrace.

(** C8, as stated, fails: in the spec a failure that the caller's
    cancellation causes is a non-retryable outcome, and after a first
    attempt with that outcome the call makes two more attempts. *)
Lemma execReq_retries_nonretryable_outcome :
  specRetryable (client_Do envCanceled (sent world0) request0) = false /\
  exists r w',
    execReq envCanceled NewHttpClient request0 3 world0 = Done r w' /\
    sent w' = (sent world0 + 3)%nat.
Proof.
  split; [reflexivity |].
  eexists _, _. split; [vm_compute; reflexivity | reflexivity].
Qed.

(** C8, amended.  With an attempt budget [attempts], whatever the
    transport does, the call returns after at most [attempts] attempts, and
    an attempt whose outcome the code does not retry, a 2xx response or a
    non-2xx status that [isRetryableStatusCode] rejects, is the last one of
    the call.  A transport failure is not such an outcome, whatever its
    cause (a caller's cancellation or an expired deadline too): while
    attempts remain it is followed by another attempt. *)
Theorem execReq_attempt_budget
    (E : Env) (c : HttpClient) (req : Request) (attempts : Z) (w : World) :
  0 <= attempts ->
  exists r w',
    execReq E c req attempts w = Done r w' /\
    (sent w <= sent w')%nat /\
    Z.of_nat (sent w' - sent w) <= attempts /\
    (forall j, (j < sent w' - sent w)%nat ->
               outcomeRetryable (client_Do E (sent w + j) req) = false ->
               sent w' = (sent w + j + 1)%nat) /\
    (forall j resp,
        (j < sent w' - sent w)%nat ->
        client_Do E (sent w + j) req = inl resp ->
        ReadAll_err resp = None ->
        isSuccessStatus (StatusCode resp) = true
        \/ isRetryableStatusCode (StatusCode resp) = false ->
        sent w' = (sent w + j + 1)%nat) /\
    (forall j,
        (j < sent w' - sent w)%nat ->
        transportFailure (client_Do E (sent w + j) req) = true ->
        Z.of_nat j < attempts - 1 ->
        (j + 1 < sent w' - sent w)%nat).
Proof.
  intros Hn.
  destruct (execLoop_bounded E c req attempts (Z.to_nat attempts) 0 None 0%nat w
              ltac:(lia) ltac:(lia)) as (r & w' & Hrun & Hle & Hcount & Hstop).
  exists r, w'. split; [exact Hrun |]. split; [exact Hle |]. split; [lia |].
  split; [exact Hstop |]. split.
  - intros j resp Hj Hresp Hread Hterm. apply (Hstop j Hj).
    rewrite Hresp. cbn. rewrite Hread.
    destruct Hterm as [Hok | Hno]; [rewrite Hok | rewrite Hno];
      [reflexivity | apply andb_false_r].
  - intros j Hj Hfail Hmore.
    destruct (execLoop_last_attempt E c req attempts (Z.to_nat attempts) 0 None 0%nat w
                ltac:(lia) ltac:(lia) ltac:(lia))
      as (k & w'' & Hrun' & Hsent & _ & _ & _ & Hlast).
    unfold execReq in Hrun. rewrite Hrun in Hrun'. injection Hrun' as _ <-.
    assert (Hjk : (j < k \/ j = k)%nat) by lia.
    destruct Hjk as [Hlt | ->]; [lia |].
    destruct Hlast as [Hbudget | Hno]; [lia |].
    rewrite (transportFailure_retryable _ Hfail) in Hno. discriminate.
Qed.

Lemma execReq_attempt_budget_witness :
  exists r w',
    execReq envFlaky NewHttpClient request0 3 world0 = Done r w' /\
    (sent world0 <= sent w')%nat /\
    Z.of_nat (sent w' - sent world0) <= 3 /\
    (forall j, (j < sent w' - sent world0)%nat ->
               outcomeRetryable (client_Do envFlaky (sent world0 + j) request0) = false ->
               sent w' = (sent world0 + j + 1)%nat) /\
    (forall j resp,
        (j < sent w' - sent world0)%nat ->
        client_Do envFlaky (sent world0 + j) request0 = inl resp ->
        ReadAll_err resp = None ->
        isSuccessStatus (StatusCode resp) = true
        \/ isRetryableStatusCode (StatusCode resp) = false ->
        sent w' = (sent world0 + j + 1)%nat) /\
    (forall j,
        (j < sent w' - sent world0)%nat ->
        transportFailure (client_Do envFlaky (sent world0 + j) request0) = true ->
        Z.of_nat j < 3 - 1 ->
        (j + 1 < sent w' - sent world0)%nat).
Proof.
  apply (execReq_attempt_budget envFlaky NewHttpClient request0 3 world0). lia.
Defined.

Lemma resultOf_not_exhausted (o : Response + error) (n : Z) (last : option error) :
  snd (resultOf o) <> Some (exhaustedError n last).
Proof.
  unfold resultOf, lastErrOf.
  destruct o as [resp | err]; [| cbn; discriminate].
  destruct (ReadAll_err resp); [cbn; discriminate |].
  destruct (negb (isSuccessStatus (StatusCode resp))); cbn; discriminate.
Qed.

(** X1.  With a budget of zero or less [execReq] calls the transport not
    once and returns the error "request failed after N attempts: <nil>". *)
Theorem execReq_no_budget
    (E : Env) (c : HttpClient) (req : Request) (attempts : Z) (w : World) :
  attempts <= 0 ->
  exists w',
    execReq E c req attempts w
    = Done (None, Some (errorString ("request failed after " +:+ Itoa attempts
                                     +:+ " attempts: <nil>"))) w' /\
    sent w' = sent w /\ events w' = events w.
Proof.
  intros Hn. unfold execReq. rewrite execLoop_exit_trace by lia.
  eexists. split; [reflexivity |]. cbn. rewrite app_nil_r. auto.
Qed.

Lemma execReq_no_budget_witness :
  exists w',
    execReq envRefused NewHttpClient request0 0 world0
    = Done (None, Some (errorString ("request failed after " +:+ Itoa 0
                                     +:+ " attempts: <nil>"))) w' /\
    sent w' = sent world0 /\ events w' = events world0.
Proof.
  apply (execReq_no_budget envRefused NewHttpClient request0 0 world0). lia.
Defined.

(** X2.  With a budget of at least one, the call returns what its last
    attempt gives: the attempts before it all had retryable outcomes, it is
    the first that is either the last of the budget or not retryable, and
    the error made after the loop is never what the call returns. *)
Theorem execReq_returns_last_outcome
    (E : Env) (c : HttpClient) (req : Request) (attempts : Z) (w : World) :
  1 <= attempts ->
  exists k w',
    execReq E c req attempts w
    = Done (resultOf (client_Do E (sent w + k) req)) w' /\
    sent w' = (sent w + k + 1)%nat /\
    Z.of_nat k < attempts /\
    (forall j, (j < k)%nat ->
               outcomeRetryable (client_Do E (sent w + j) req) = true) /\
    (Z.of_nat k = attempts - 1
     \/ outcomeRetryable (client_Do E (sent w + k) req) = false) /\
    forall last,
      snd (resultOf (client_Do E (sent w + k) req))
      <> Some (exhaustedError attempts last).
Proof.
  intros Hn.
  destruct (execLoop_last_attempt E c req attempts (Z.to_nat attempts) 0 None 0%nat w
              ltac:(lia) ltac:(lia) ltac:(lia))
    as (k & w' & Hrun & Hsent & _ & Hk & Hall & Hstop).
  exists k, w'. split; [exact Hrun |]. split; [exact Hsent |].
  split; [lia |]. split; [exact Hall |].
  split; [destruct Hstop as [Hl | Hn']; [left; lia | right; exact Hn'] |].
  intros last. apply resultOf_not_exhausted.
Qed.

Lemma execReq_returns_last_outcome_witness :
  exists k w',
    execReq envRecovers NewHttpClient request0 3 world0
    = Done (resultOf (client_Do envRecovers (sent world0 + k) request0)) w' /\
    sent w' = (sent world0 + k + 1)%nat /\
    Z.of_nat k < 3 /\
    (forall j, (j < k)%nat ->
               outcomeRetryable (client_Do envRecovers (sent world0 + j) request0) = true) /\
    (Z.of_nat k = 3 - 1
     \/ outcomeRetryable (client_Do envRecovers (sent world0 + k) request0) = false) /\
    forall last,
      snd (resultOf (client_Do envRecovers (sent world0 + k) request0))
      <> Some (exhaustedError 3 last).
Proof.
  apply (execReq_returns_last_outcome envRecovers NewHttpClient request0 3 world0). lia.
Defined.



(** X4.  When every attempt of a budget [N >= 1] brings a non-2xx status
    that the classifier accepts, the call makes [N] attempts and returns the
    [RequestError] of the last response, with its status code and body. *)
Theorem execReq_retryable_status_exhausted
    (E : Env) (c : HttpClient) (req : Request) (n : nat) (w : World) :
  (1 <= n)%nat ->
  (forall j, (j < n)%nat ->
     exists resp, client_Do E (sent w + j) req = inl resp /\
                  ReadAll_err resp = None /\
                  isSuccessStatus (StatusCode resp) = false /\
                  isRetryableStatusCode (StatusCode resp) = true) ->
  exists resp w',
    client_Do E (sent w + (n - 1)) req = inl resp /\
    execReq E c req (Z.of_nat n) w
    = Done (None, Some (RequestError (StatusCode resp)
                          (string_of_list_byte (ReadAll_data resp)) None)) w' /\
    sent w' = (sent w + n)%nat.
Proof.
  intros Hn Hall.
  destruct (execReq_stops_at E c req (Z.of_nat n) (n - 1) w ltac:(lia))
    as (w' & Hrun & Hsent & _).
  - intros j Hj. destruct (Hall j ltac:(lia)) as (resp & -> & Hread & Hns & Hcode).
    cbn. rewrite Hread, Hns, Hcode. reflexivity.
  - left. lia.
  - destruct (Hall (n - 1)%nat ltac:(lia)) as (resp & Hresp & Hread & Hns & _).
    exists resp, w'. split; [exact Hresp |]. split; [| lia].
    rewrite Hrun, Hresp. unfold resultOf, lastErrOf. rewrite Hread, Hns. reflexivity.
Qed.

Lemma execReq_retryable_status_exhausted_witness :
  exists resp w',
    client_Do envBusy (sent world0 + (3 - 1)) request0 = inl resp /\
    execReq envBusy NewHttpClient request0 (Z.of_nat 3) world0
    = Done (None, Some (RequestError (StatusCode resp)
                          (string_of_list_byte (ReadAll_data resp)) None)) w' /\
    sent w' = (sent world0 + 3)%nat.
Proof.
  apply (execReq_retryable_status_exhausted envBusy NewHttpClient request0 3 world0).
  - lia.
  - intros j Hj. eexists. split; [reflexivity |]. repeat split.
Defined.

(** X5.  When the first [k] attempts have retryable outcomes of any kind
    (among them the statuses 429 and 5xx) and attempt [k < N] brings a 2xx
    response, the call returns its body after [k+1] attempts and [k]
    sleeps. *)
Theorem execReq_succeeds_after_retries
    (E : Env) (c : HttpClient) (req : Request) (k n : nat) (w : World)
    (resp : Response) :
  (k < n)%nat ->
  (forall j, (j < k)%nat ->
             outcomeRetryable (client_Do E (sent w + j) req) = true) ->
  client_Do E (sent w + k) req = inl resp ->
  ReadAll_err resp = None ->
  isSuccessStatus (StatusCode resp) = true ->
  exists w',
    execReq E c req (Z.of_nat n) w = Done (Some (ReadAll_data resp), None) w' /\
    sent w' = (sent w + k + 1)%nat /\
    sleepsOf (events w') = (sleepsOf (events w) + k)%nat.
Proof.
  intros Hk Hall Hresp Hread Hok.
  destruct (execReq_stops_at E c req (Z.of_nat n) k w ltac:(lia) Hall)
    as (w' & Hrun & Hsent & Hsleep).
  - right. rewrite Hresp. cbn. rewrite Hread, Hok. reflexivity.
  - exists w'. split; [| split; assumption].
    rewrite Hrun, Hresp. unfold resultOf, lastErrOf. rewrite Hread, Hok. reflexivity.
Qed.

Lemma execReq_succeeds_after_retries_witness :
  exists w',
    execReq envRecovers NewHttpClient request0 (Z.of_nat 3) world0
    = Done (Some (list_byte_of_string "ok"), None) w' /\
    sent w' = (sent world0 + 2 + 1)%nat /\
    sleepsOf (events w') = (sleepsOf (events world0) + 2)%nat.
Proof.
  apply (execReq_succeeds_after_retries envRecovers NewHttpClient request0 2 3 world0
           {| StatusCode := 200; ReadAll_data := list_byte_of_string "ok";
              ReadAll_err := None |}).
  - lia.
  - intros [| [| j]] Hj; [reflexivity | reflexivity | lia].
  - reflexivity.
  - reflexivity.
  - reflexivity.
Defined.

(** X6.  Whatever the transport does, when [execReq] returns it has closed
    the body of every response it received, and it closes none before: the
    [Close] calls are the end of the trace (the bodies of retried responses
    stay open during the backoff sleeps). *)
Theorem execReq_closes_bodies_at_return
    (E : Env) (c : HttpClient) (req : Request) (attempts : Z) (w : World) :
  exists r w' pre,
    execReq E c req attempts w = Done r w' /\
    events w' = pre ++ repeat EvClose
                  (responsesReceived E req (sent w) (sent w' - sent w)) /\
    closesOf pre = closesOf (events w).
Proof.
  destruct (execLoop_closes E c req attempts (Z.to_nat attempts) 0 None 0%nat w
              ltac:(lia) ltac:(lia)) as (r & w' & pre & Hrun & _ & Hev & Hpre).
  exists r, w', pre. auto.
Qed.

(** X7.  When rounding and the random draws are as [float64] and
    [rand.Float64] give them and no nominal delay of the budget overflows,
    the sleep after attempt [j] of a call lasts
    [min (baseDelay * 2^j) (30 seconds)]. *)
Theorem execReq_sleep_durations
    (E : Env) (c : HttpClient) (req : Request) (attempts : Z) (w : World) :
  rounds_inside (round64 E) ->
  (forall n, (0 <= rand_Float64 E n < 1)%Q) ->
  (forall j, 0 <= j < attempts - 1 ->
             minInt64 <= baseDelay c * 2 ^ j <= maxInt64) ->
  exists r w',
    execReq E c req attempts w = Done r w' /\
    sleepDurations (events w')
    = sleepDurations (events w)
      ++ map (fun j => Z.min (baseDelay c * 2 ^ Z.of_nat j) (30 * Second))
             (seq 0 (sent w' - sent w - 1)).
Proof.
  intros Hfl Hrnd Hrange.
  destruct (execLoop_sleeps E c req attempts (Z.to_nat attempts) Hfl Hrnd Hrange
              0 None 0%nat w ltac:(lia) ltac:(lia))
    as (r & w' & Hrun & _ & _ & Hev).
  exists r, w'. split; [exact Hrun | exact Hev].
Qed.

Lemma execReq_sleep_durations_witness :
  exists r w',
    execReq envBusy NewHttpClient request0 3 world0 = Done r w' /\
    sleepDurations (events w')
    = sleepDurations (events world0)
      ++ map (fun j => Z.min (baseDelay NewHttpClient * 2 ^ Z.of_nat j) (30 * Second))
             (seq 0 (sent w' - sent world0 - 1)).
Proof.
  apply (execReq_sleep_durations envBusy NewHttpClient request0 3 world0).
  - exact rounds_inside_exact.
  - intros n. cbn. lra.
  - intros j Hj. assert (Hcases : j = 0 \/ j = 1) by lia.
    destruct Hcases as [-> | ->]; vm_compute; split; discriminate.
Defined.

(** ** More on the backoff calculator *)

Lemma wrap64_range (z : Z) : minInt64 <= wrap64 z <= maxInt64.
Proof.
  unfold wrap64, minInt64, maxInt64.
  pose proof (Z.mod_pos_bound (z + 2 ^ 63) (2 ^ 64) ltac:(lia)). lia.
Qed.

Lemma wrap64_pow2_large (n : Z) : 64 <= n -> wrap64 (2 ^ n) = 0.
Proof.
  intros Hn. unfold wrap64.
  replace n with ((n - 64) + 64) by lia.
  rewrite Z.pow_add_r by lia.
  rewrite Z.add_comm, Z_mod_plus_full. reflexivity.
Qed.

(** X8.  From attempt 64 on, the shift [1 << attempt] has shifted every bit
    out: the delay is 0, whatever the base delay and the random draw. *)
Theorem calcBackoff_large_attempt
    (fl : Q -> Q) (rnd : Q) (attempt : Z) (base : Duration) :
  64 <= attempt -> calcBackoff fl rnd attempt base = Some 0.
Proof.
  intros Ha. unfold calcBackoff, shl64.
  destruct (Z.ltb_spec attempt 0) as [? | _]; [lia |].
  cbv zeta. rewrite Z.shiftl_1_l, (wrap64_pow2_large attempt Ha).
  unfold mul64, add64. rewrite !Z.mul_0_r. reflexivity.
Qed.

Lemma calcBackoff_large_attempt_witness :
  calcBackoff exact 0.5 64 Second = Some 0.
Proof. apply (calcBackoff_large_attempt exact 0.5 64 Second). lia. Defined.

(** X9.  [calcBackoff] panics on a negative attempt index (a negative shift
    count) and on nothing else; for every other input, overflowing or not
    and whatever the random draw, it returns a delay of at most 30
    seconds. *)
Theorem calcBackoff_capped
    (fl : Q -> Q) (rnd : Q) (attempt : Z) (base : Duration) :
  (attempt < 0 -> calcBackoff fl rnd attempt base = None) /\
  (0 <= attempt ->
   exists d, calcBackoff fl rnd attempt base = Some d /\
             minInt64 <= d <= 30 * Second).
Proof.
  unfold calcBackoff, shl64. split; intros Ha.
  - destruct (Z.ltb_spec attempt 0); [reflexivity | lia].
  - destruct (Z.ltb_spec attempt 0) as [? | _]; [lia |].
    cbv zeta.
    match goal with
    | |- context [if ?x >? _ then _ else _] =>
        pose proof (wrap64_range
          (mul64 base (wrap64 (Z.shiftl 1 attempt))
           + mul64 (Duration_of_float64 (fl (fl (rnd * fl 0.4) - fl 0.2)%Q))
                   (mul64 base (wrap64 (Z.shiftl 1 attempt))))) as Hr;
        fold (add64 (mul64 base (wrap64 (Z.shiftl 1 attempt)))
                    (mul64 (Duration_of_float64 (fl (fl (rnd * fl 0.4) - fl 0.2)%Q))
                           (mul64 base (wrap64 (Z.shiftl 1 attempt))))) in Hr;
        destruct (Z.gtb_spec x (30 * Second))
    end.
    + eexists. split; [reflexivity |]. unfold minInt64, Second. lia.
    + eexists. split; [reflexivity |]. lia.
Qed.

(** X10.  While the nominal delay fits an [int64], the delay doubles from
    one attempt to the next until it reaches the cap of 30 seconds, and it
    never decreases. *)
Theorem calcBackoff_doubles
    (fl : Q -> Q) (r1 r2 : Q) (i : Z) (b : Duration) :
  rounds_inside fl -> (0 <= r1 < 1)%Q -> (0 <= r2 < 1)%Q ->
  0 <= i -> 0 < b -> b * 2 ^ (i + 1) <= maxInt64 ->
  exists d d',
    calcBackoff fl r1 i b = Some d /\
    calcBackoff fl r2 (i + 1) b = Some d' /\
    d' = Z.min (2 * d) (30 * Second) /\
    d <= d'.
Proof.
  intros Hfl H1 H2 Hi Hb Hmax.
  assert (Hp : 0 < 2 ^ i) by (apply Z.pow_pos_nonneg; lia).
  assert (Hs : 2 ^ (i + 1) = 2 * 2 ^ i) by (rewrite Z.pow_add_r by lia; lia).
  assert (Hn : 0 < b * 2 ^ i) by (apply Z.mul_pos_pos; lia).
  eexists _, _.
  split; [apply calcBackoff_in_range; try assumption; unfold minInt64; lia |].
  split; [apply calcBackoff_in_range; try assumption; unfold minInt64; lia |].
  rewrite Hs. assert (Hcap : 0 < 30 * Second) by reflexivity.
  split; lia.
Qed.

Lemma calcBackoff_doubles_witness :
  exists d d',
    calcBackoff exact 0.5 4 Second = Some d /\
    calcBackoff exact 0.25 (4 + 1) Second = Some d' /\
    d' = Z.min (2 * d) (30 * Second) /\
    d <= d'.
Proof.
  apply (calcBackoff_doubles exact 0.5 0.25 4 Second).
  - exact rounds_inside_exact.
  - lra.
  - lra.
  - lia.
  - reflexivity.
  - unfold maxInt64, Second. lia.
Defined.

(** ** More on the method builders *)

Lemma length_list_byte_of_string (s : string) :
  length (list_byte_of_string s) = String.length s.
Proof.
  unfold list_byte_of_string. rewrite length_map.
  induction s as [| a s IH]; [reflexivity | cbn; rewrite IH; reflexivity].
Qed.

Section BuilderDefaults.

Variable Context : Type.
Variable Payload : Type.
Variable Values : Type.
Variable json_Marshal : Payload -> list Byte.byte + error.
Variable Values_Encode : Values -> string.
Variable NewRequestWithContext :
  Context -> string -> string -> option (list Byte.byte) -> Request + error.
Variable canon : string -> string.
Variable range : gmap string string -> list (string * string).
Hypothesis range_visits : visits_each_entry_once range.

Lemma Header_Set_loop_other (l : list (string * string)) (req : Request) (K : string) :
  (forall k v, (k, v) ∈ l -> canon k <> K) ->
  Header (foldl (fun r kv => Header_Set canon r kv.1 kv.2) req l) !! K
  = Header req !! K.
Proof.
  revert req. induction l as [| [k0 v0] l IH]; intros req Hno; [reflexivity |].
  cbn [foldl]. rewrite IH.
  - cbn. apply lookup_insert_ne. apply (Hno k0 v0). apply list_elem_of_here.
  - intros k v Hin. apply (Hno k v). apply list_elem_of_further, Hin.
Qed.

Lemma rangeSet_untouched (req : Request) (headers : gmap string string) (K : string) :
  (forall k v, headers !! k = Some v -> canon k <> K) ->
  Header (rangeSet canon range req headers) !! K = Header req !! K.
Proof.
  intros Hno. unfold rangeSet. apply Header_Set_loop_other.
  intros k v Hin. apply (Hno k v).
  rewrite (range_visits headers) in Hin. apply elem_of_map_to_list, Hin.
Qed.

Lemma rangeSet_empty (req : Request) : rangeSet canon range req ∅ = req.
Proof.
  unfold rangeSet.
  assert (Hnil : range ∅ = []).
  { apply Permutation_nil. symmetry. rewrite (range_visits ∅), map_to_list_empty.
    reflexivity. }
  rewrite Hnil. reflexivity.
Qed.

(** X11.  When [json.Marshal] refuses the payload, [PostJsonReq],
    [PutJsonReq] and [PatchJsonReq] return its error under the prefix
    "marshaling JSON: " and do nothing else: no request is made or sent. *)
Theorem builders_marshal_failure
    (E : Env) (c : HttpClient) (ctx : Context) (url : string)
    (payload : Payload) (headers : gmap string string) (err : error)
    (w : World) :
  json_Marshal payload = inr err ->
  PostJsonReq Context Payload json_Marshal NewRequestWithContext canon range
              E c ctx url payload headers w
  = Done (None, Some (wrapError ("marshaling JSON: " +:+ Error err) err)) w /\
  PutJsonReq Context Payload json_Marshal NewRequestWithContext canon range
             E c ctx url payload headers w
  = Done (None, Some (wrapError ("marshaling JSON: " +:+ Error err) err)) w /\
  PatchJsonReq Context Payload json_Marshal NewRequestWithContext canon range
               E c ctx url payload headers w
  = Done (None, Some (wrapError ("marshaling JSON: " +:+ Error err) err)) w.
Proof.
  intros Hjson. unfold PostJsonReq, PutJsonReq, PatchJsonReq.
  rewrite Hjson. repeat split.
Qed.

(** X12.  When net/http can make no request for the URL, each of the six
    builders returns that error under the prefix "creating request: " and
    sends nothing. *)
Theorem builders_request_failure
    (E : Env) (c : HttpClient) (ctx : Context) (url : string)
    (headers : gmap string string) (err : error) (w : World) :
  (forall method body, NewRequestWithContext ctx method url body = inr err) ->
  GetReq Context NewRequestWithContext canon range E c ctx url headers w
  = Done (None, Some (wrapError ("creating request: " +:+ Error err) err)) w /\
  DeleteReq Context NewRequestWithContext canon range E c ctx url headers w
  = Done (None, Some (wrapError ("creating request: " +:+ Error err) err)) w /\
  (forall formData,
     PostFormReq Context Values Values_Encode NewRequestWithContext canon range
                 E c ctx url formData headers w
     = Done (None, Some (wrapError ("creating request: " +:+ Error err) err)) w) /\
  (forall payload jsonBody,
     json_Marshal payload = inl jsonBody ->
     PostJsonReq Context Payload json_Marshal NewRequestWithContext canon range
                 E c ctx url payload headers w
     = Done (None, Some (wrapError ("creating request: " +:+ Error err) err)) w /\
     PutJsonReq Context Payload json_Marshal NewRequestWithContext canon range
                E c ctx url payload headers w
     = Done (None, Some (wrapError ("creating request: " +:+ Error err) err)) w /\
     PatchJsonReq Context Payload json_Marshal NewRequestWithContext canon range
                  E c ctx url payload headers w
     = Done (None, Some (wrapError ("creating request: " +:+ Error err) err)) w).
Proof.
  intros Hnew.
  unfold GetReq, DeleteReq, PostFormReq, PostJsonReq, PutJsonReq, PatchJsonReq.
  split; [rewrite Hnew; reflexivity |].
  split; [rewrite Hnew; reflexivity |].
  split; [intros formData; cbv zeta; rewrite Hnew; reflexivity |].
  intros payload jsonBody Hjson. rewrite Hjson, !Hnew. repeat split.
Qed.

(** X13.  When no key of the caller's map collides with [Content-Type],
    the request carries the default of the builder: [application/json] for
    the three JSON builders, [application/x-www-form-urlencoded] for
    [PostFormReq]. *)
Theorem builders_default_content_type
    (E : Env) (c : HttpClient) (ctx : Context) (url : string)
    (headers : gmap string string) :
  (forall k v, headers !! k = Some v -> canon k <> canon "Content-Type") ->
  (forall payload jsonBody req0,
      json_Marshal payload = inl jsonBody ->
      NewRequestWithContext ctx MethodPost url (Some jsonBody) = inl req0 ->
      exists req,
        PostJsonReq Context Payload json_Marshal NewRequestWithContext canon
                    range E c ctx url payload headers
        = execReq E c req (maxAttempts c) /\
        Header req !! canon "Content-Type" = Some ["application/json"%string]) /\
  (forall payload jsonBody req0,
      json_Marshal payload = inl jsonBody ->
      NewRequestWithContext ctx MethodPut url (Some jsonBody) = inl req0 ->
      exists req,
        PutJsonReq Context Payload json_Marshal NewRequestWithContext canon
                   range E c ctx url payload headers
        = execReq E c req (maxAttempts c) /\
        Header req !! canon "Content-Type" = Some ["application/json"%string]) /\
  (forall payload jsonBody req0,
      json_Marshal payload = inl jsonBody ->
      NewRequestWithContext ctx MethodPatch url (Some jsonBody) = inl req0 ->
      exists req,
        PatchJsonReq Context Payload json_Marshal NewRequestWithContext canon
                     range E c ctx url payload headers
        = execReq E c req (maxAttempts c) /\
        Header req !! canon "Content-Type" = Some ["application/json"%string]) /\
  (forall formData req0,
      canon "Content-Length" <> canon "Content-Type" ->
      NewRequestWithContext ctx MethodPost url
        (Some (list_byte_of_string (Values_Encode formData))) = inl req0 ->
      exists req,
        PostFormReq Context Values Values_Encode NewRequestWithContext canon
                    range E c ctx url formData headers
        = execReq E c req (maxAttempts c) /\
        Header req !! canon "Content-Type"
        = Some ["application/x-www-form-urlencoded"%string]).
Proof.
  intros Hno.
  repeat split.
  - intros payload jsonBody req0 Hjson Hnew.
    unfold PostJsonReq. rewrite Hjson, Hnew.
    eexists. split; [reflexivity |].
    rewrite rangeSet_untouched by exact Hno. apply lookup_insert_eq.
  - intros payload jsonBody req0 Hjson Hnew.
    unfold PutJsonReq. rewrite Hjson, Hnew.
    eexists. split; [reflexivity |].
    rewrite rangeSet_untouched by exact Hno. apply lookup_insert_eq.
  - intros payload jsonBody req0 Hjson Hnew.
    unfold PatchJsonReq. rewrite Hjson, Hnew.
    eexists. split; [reflexivity |].
    rewrite rangeSet_untouched by exact Hno. apply lookup_insert_eq.
  - intros formData req0 Hlen Hnew.
    unfold PostFormReq. cbv zeta. rewrite Hnew.
    eexists. split; [reflexivity |].
    rewrite rangeSet_untouched by exact Hno. cbn.
    rewrite lookup_insert_ne by exact Hlen. apply lookup_insert_eq.
Qed.

(** X14.  Every header of the caller reaches the request, with each of the
    six builders: under the canonical form of a caller's key the request
    carries a caller's value (the value of that key when no other key of
    the caller has the same canonical form). *)
Theorem builders_carry_caller_headers
    (E : Env) (c : HttpClient) (ctx : Context) (url : string)
    (headers : gmap string string) (k v : string) :
  headers !! k = Some v ->
  (forall req0,
      NewRequestWithContext ctx MethodGet url None = inl req0 ->
      exists req,
        GetReq Context NewRequestWithContext canon range E c ctx url headers
        = execReq E c req (maxAttempts c) /\
        carriesCallerValue canon headers (canon k) k v req) /\
  (forall req0,
      NewRequestWithContext ctx MethodDelete url None = inl req0 ->
      exists req,
        DeleteReq Context NewRequestWithContext canon range E c ctx url headers
        = execReq E c req (maxAttempts c) /\
        carriesCallerValue canon headers (canon k) k v req) /\
  (forall formData req0,
      NewRequestWithContext ctx MethodPost url
        (Some (list_byte_of_string (Values_Encode formData))) = inl req0 ->
      exists req,
        PostFormReq Context Values Values_Encode NewRequestWithContext canon
                    range E c ctx url formData headers
        = execReq E c req (maxAttempts c) /\
        carriesCallerValue canon headers (canon k) k v req) /\
  (forall payload jsonBody,
      json_Marshal payload = inl jsonBody ->
      (forall req0,
          NewRequestWithContext ctx MethodPost url (Some jsonBody) = inl req0 ->
          exists req,
            PostJsonReq Context Payload json_Marshal NewRequestWithContext canon
                        range E c ctx url payload headers
            = execReq E c req (maxAttempts c) /\
            carriesCallerValue canon headers (canon k) k v req) /\
      (forall req0,
          NewRequestWithContext ctx MethodPut url (Some jsonBody) = inl req0 ->
          exists req,
            PutJsonReq Context Payload json_Marshal NewRequestWithContext canon
                       range E c ctx url payload headers
            = execReq E c req (maxAttempts c) /\
            carriesCallerValue canon headers (canon k) k v req) /\
      (forall req0,
          NewRequestWithContext ctx MethodPatch url (Some jsonBody) = inl req0 ->
          exists req,
            PatchJsonReq Context Payload json_Marshal NewRequestWithContext canon
                         range E c ctx url payload headers
            = execReq E c req (maxAttempts c) /\
            carriesCallerValue canon headers (canon k) k v req)).
Proof.
  intros Hk.
  pose proof (fun req => rangeSet_carries canon range range_visits req headers k v Hk)
    as Hcarry.
  split; [| split; [| split]].
  - intros req0 Hnew. unfold GetReq. rewrite Hnew.
    eexists. split; [reflexivity | apply Hcarry].
  - intros req0 Hnew. unfold DeleteReq. rewrite Hnew.
    eexists. split; [reflexivity | apply Hcarry].
  - intros formData req0 Hnew. unfold PostFormReq. cbv zeta. rewrite Hnew.
    eexists. split; [reflexivity | apply Hcarry].
  - intros payload jsonBody Hjson.
    unfold PostJsonReq, PutJsonReq, PatchJsonReq. rewrite Hjson.
    split; [| split]; intros req0 Hnew; rewrite Hnew;
      (eexists; split; [reflexivity | apply Hcarry]).
Qed.

(** X15.  Unless a caller's key collides with it, the [Content-Length] that
    [PostFormReq] sets is the number of bytes of the encoded form, the body
    it gives to net/http, in decimal. *)
Theorem PostFormReq_content_length
    (E : Env) (c : HttpClient) (ctx : Context) (url : string)
    (formData : Values) (headers : gmap string string) (req0 : Request) :
  (forall k v, headers !! k = Some v -> canon k <> canon "Content-Length") ->
  NewRequestWithContext ctx MethodPost url
    (Some (list_byte_of_string (Values_Encode formData))) = inl req0 ->
  exists req,
    PostFormReq Context Values Values_Encode NewRequestWithContext canon range
                E c ctx url formData headers
    = execReq E c req (maxAttempts c) /\
    Header req !! canon "Content-Length"
    = Some [Itoa (Z.of_nat (length (list_byte_of_string (Values_Encode formData))))] /\
    Body req = Body req0.
Proof.
  intros Hno Hnew. unfold PostFormReq. cbv zeta. rewrite Hnew.
  eexists. split; [reflexivity |]. split.
  - rewrite rangeSet_untouched by exact Hno. cbn.
    rewrite length_list_byte_of_string. apply lookup_insert_eq.
  - destruct (rangeSet_fields canon range
                (Header_Set canon
                   (Header_Set canon req0 "Content-Type"
                      "application/x-www-form-urlencoded")
                   "Content-Length"
                   (Itoa (Z.of_nat (String.length (Values_Encode formData)))))
                headers) as (_ & _ & Hb).
    rewrite Hb. reflexivity.
Qed.

(** X16.  Through the client that [NewHttpClient] makes, a call of any of
    the six builders sends at most three requests, whatever the transport
    does. *)
Theorem builders_send_at_most_three
    (E : Env) (ctx : Context) (url : string) (headers : gmap string string)
    (w : World) :
  sendsAtMost 3 w (GetReq Context NewRequestWithContext canon range
                  E NewHttpClient ctx url headers) /\
  sendsAtMost 3 w (DeleteReq Context NewRequestWithContext canon range
                     E NewHttpClient ctx url headers) /\
  (forall formData,
     sendsAtMost 3 w (PostFormReq Context Values Values_Encode NewRequestWithContext
                          canon range E NewHttpClient ctx url formData headers)) /\
  (forall payload,
     sendsAtMost 3 w (PostJsonReq Context Payload json_Marshal NewRequestWithContext
                          canon range E NewHttpClient ctx url payload headers) /\
     sendsAtMost 3 w (PutJsonReq Context Payload json_Marshal NewRequestWithContext
                         canon range E NewHttpClient ctx url payload headers) /\
     sendsAtMost 3 w (PatchJsonReq Context Payload json_Marshal NewRequestWithContext
                           canon range E NewHttpClient ctx url payload headers)).
Proof.
  assert (Hexec : forall req,
             exists r w', execReq E NewHttpClient req (maxAttempts NewHttpClient) w
                          = Done r w' /\ (sent w <= sent w' <= sent w + 3)%nat).
  { intros req.
    destruct (execLoop_bounded E NewHttpClient req 3 (Z.to_nat 3) 0 None 0%nat w
                ltac:(lia) ltac:(lia)) as (r & w' & Hrun & Hle & Hcount & _).
    exists r, w'. split; [exact Hrun | lia]. }
  assert (Hret : forall x : Result,
             exists r w', ret x w = Done r w' /\ (sent w <= sent w' <= sent w + 3)%nat).
  { intros x. exists x, w. split; [reflexivity | lia]. }
  unfold sendsAtMost, GetReq, DeleteReq, PostFormReq, PostJsonReq, PutJsonReq,
    PatchJsonReq.
  split; [destruct (NewRequestWithContext ctx MethodGet url None); auto |].
  split; [destruct (NewRequestWithContext ctx MethodDelete url None); auto |].
  split.
  - intros formData. cbv zeta.
    destruct (NewRequestWithContext ctx MethodPost url _); auto.
  - intros payload. destruct (json_Marshal payload) as [jsonBody | err]; [| auto].
    split; [| split];
      match goal with
      | |- context [NewRequestWithContext ?a ?b ?c ?d] =>
          destruct (NewRequestWithContext a b c d); auto
      end.
Qed.

(** X17.  With an empty map of headers [GetReq] and [DeleteReq] hand to the
    executor the request exactly as net/http made it: they set no header of
    their own. *)
Theorem GetReq_DeleteReq_set_no_header
    (E : Env) (c : HttpClient) (ctx : Context) (url : string) :
  (forall req0,
      NewRequestWithContext ctx MethodGet url None = inl req0 ->
      GetReq Context NewRequestWithContext canon range E c ctx url ∅
      = execReq E c req0 (maxAttempts c)) /\
  (forall req0,
      NewRequestWithContext ctx MethodDelete url None = inl req0 ->
      DeleteReq Context NewRequestWithContext canon range E c ctx url ∅
      = execReq E c req0 (maxAttempts c)).
Proof.
  unfold GetReq, DeleteReq.
  split; intros req0 Hnew; rewrite Hnew; cbv zeta;
    rewrite rangeSet_empty; reflexivity.
Qed.

End BuilderDefaults.

Lemma builders_marshal_failure_witness :
  PostJsonReq unit string sampleMarshalFails sampleNewRequest sampleCanon
              map_to_list envFlaky NewHttpClient tt "http://upstream/items"
              "[1]" sampleHeaders world0
  = Done (None, Some (wrapError "marshaling JSON: json: unsupported value"
                        (libError "json: unsupported value" None))) world0.
Proof.
  apply (builders_marshal_failure unit string sampleMarshalFails sampleNewRequest
           sampleCanon map_to_list envFlaky NewHttpClient tt
           "http://upstream/items" "[1]"%string sampleHeaders
           (libError "json: unsupported value" None) world0).
  reflexivity.
Defined.

Lemma builders_request_failure_witness :
  GetReq unit sampleNewRequestFails sampleCanon map_to_list envFlaky
         NewHttpClient tt "upstream/items" sampleHeaders world0
  = Done (None, Some (wrapError "creating request: parse: missing protocol scheme"
                        (libError "parse: missing protocol scheme" None))) world0.
Proof.
  apply (builders_request_failure unit string string sampleMarshal (fun s => s)
           sampleNewRequestFails sampleCanon map_to_list envFlaky NewHttpClient
           tt "upstream/items" sampleHeaders
           (libError "parse: missing protocol scheme" None) world0).
  intros method body. reflexivity.
Defined.

Lemma sampleHeadersOther_no_collision (K : string) :
  sampleCanon "X-Request-Id" <> K ->
  forall k v, sampleHeadersOther !! k = Some v -> sampleCanon k <> K.
Proof.
  intros Hne k v Hk. unfold sampleHeadersOther in Hk.
  apply lookup_singleton_Some in Hk as [<- _]. exact Hne.
Qed.

Lemma builders_default_content_type_witness :
  exists req,
    PostJsonReq unit string sampleMarshal sampleNewRequest sampleCanon
                map_to_list envFlaky NewHttpClient tt "http://upstream/items"
                "[1]" sampleHeadersOther
    = execReq envFlaky NewHttpClient req (maxAttempts NewHttpClient) /\
    Header req !! sampleCanon "Content-Type" = Some ["application/json"%string].
Proof.
  destruct (builders_default_content_type unit string string sampleMarshal
              (fun s => s) sampleNewRequest sampleCanon map_to_list
              map_to_list_visits envFlaky NewHttpClient tt
              "http://upstream/items" sampleHeadersOther) as [Hpost _].
  - apply sampleHeadersOther_no_collision. vm_compute. discriminate.
  - apply (Hpost "[1]"%string (list_byte_of_string "[1]")
                 {| Method := MethodPost; URL := "http://upstream/items";
                    Header := ∅; Body := Some (list_byte_of_string "[1]") |});
      reflexivity.
Defined.

Lemma builders_carry_caller_headers_witness :
  exists req,
    GetReq unit sampleNewRequest sampleCanon map_to_list envFlaky NewHttpClient
           tt "http://upstream/items" sampleHeadersOther
    = execReq envFlaky NewHttpClient req (maxAttempts NewHttpClient) /\
    carriesCallerValue sampleCanon sampleHeadersOther
                       (sampleCanon "X-Request-Id") "X-Request-Id" "42" req.
Proof.
  destruct (builders_carry_caller_headers unit string string sampleMarshal
              (fun s => s) sampleNewRequest sampleCanon map_to_list
              map_to_list_visits envFlaky NewHttpClient tt
              "http://upstream/items" sampleHeadersOther "X-Request-Id" "42")
    as [Hget _].
  - apply lookup_singleton_eq.
  - apply (Hget {| Method := MethodGet; URL := "http://upstream/items";
                   Header := ∅; Body := None |}).
    reflexivity.
Defined.

Lemma PostFormReq_content_length_witness :
  exists req,
    PostFormReq unit string (fun s => s) sampleNewRequest sampleCanon map_to_list
                envFlaky NewHttpClient tt "http://upstream/items" "a=1&b=2"
                sampleHeadersOther
    = execReq envFlaky NewHttpClient req (maxAttempts NewHttpClient) /\
    Header req !! sampleCanon "Content-Length"
    = Some [Itoa (Z.of_nat (length (list_byte_of_string "a=1&b=2")))] /\
    Body req = Some (list_byte_of_string "a=1&b=2").
Proof.
  apply (PostFormReq_content_length unit string (fun s => s) sampleNewRequest
           sampleCanon map_to_list map_to_list_visits envFlaky NewHttpClient tt
           "http://upstream/items" "a=1&b=2"%string sampleHeadersOther
           {| Method := MethodPost; URL := "http://upstream/items";
              Header := ∅; Body := Some (list_byte_of_string "a=1&b=2") |}).
  - apply sampleHeadersOther_no_collision. vm_compute. discriminate.
  - reflexivity.
Defined.

Lemma GetReq_DeleteReq_set_no_header_witness :
  GetReq unit sampleNewRequest sampleCanon map_to_list envFlaky NewHttpClient
         tt "http://upstream/items" ∅
  = execReq envFlaky NewHttpClient
      {| Method := MethodGet; URL := "http://upstream/items";
         Header := ∅; Body := None |}
      (maxAttempts NewHttpClient).
Proof.
  destruct (GetReq_DeleteReq_set_no_header unit sampleNewRequest sampleCanon
              map_to_list map_to_list_visits envFlaky NewHttpClient tt
              "http://upstream/items") as [Hget _].
  apply Hget. reflexivity.
Defined.

(** ** Middleware *)

Lemma TowerLoop_take (m : list Middleware) (n : nat) :
  forall h : Handler,
  (n <= length m)%nat ->
  TowerLoop m n h = foldr (fun mi acc => mi acc) h (take n m).
Proof.
  induction n as [| i IH]; intros h Hn; [reflexivity |].
  cbn [TowerLoop]. unfold Middleware in *.
  destruct (lookup_lt_is_Some_2 m i ltac:(lia)) as [mi Hmi].
  rewrite Hmi, IH by lia.
  rewrite (take_S_r m i mi Hmi), foldr_app. reflexivity.
Qed.

Lemma Tower_foldr (h : Handler) (m : list Middleware) :
  Tower h m = foldr (fun mi acc => mi acc) h m.
Proof.
  unfold Tower. rewrite TowerLoop_take by lia.
  rewrite firstn_all. reflexivity.
Qed.

(** X18.  [Tower] with no middleware is the handler itself, and the first
    middleware passed is the outermost: it receives the request first, and
    the rest of the stack is the handler it wraps. *)
Theorem Tower_first_is_outermost (h : Handler) :
  Tower h [] = h /\
  forall (m0 : Middleware) (ms : list Middleware),
    Tower h (m0 :: ms) = m0 (Tower h ms).
Proof.
  split; [reflexivity |].
  intros m0 ms. rewrite !Tower_foldr. reflexivity.
Qed.

(** X19.  Stacking two lists of middleware at once is stacking the second
    list first and the first list around it. *)
Theorem Tower_app (h : Handler) (m1 m2 : list Middleware) :
  Tower h (m1 ++ m2) = Tower (Tower h m2) m1.
Proof. rewrite !Tower_foldr. apply foldr_app. Qed.

Lemma methodAllowed_elem (allowedMethods : list string) (requestMethod : string) :
  methodAllowed allowedMethods requestMethod = true
  <-> requestMethod ∈ allowedMethods.
Proof.
  induction allowedMethods as [| method rest IH]; cbn.
  - split; [discriminate | intros H; inversion H].
  - destruct (String.eqb_spec method requestMethod) as [-> | Hne].
    + split; [intros _; apply list_elem_of_here | reflexivity].
    + rewrite IH. split.
      * intros H. apply list_elem_of_further, H.
      * intros H. apply elem_of_cons in H as [Heq | H]; [congruence | exact H].
Qed.

Lemma MethodMiddleware_pass
    (allowedMethods : list string) (next : Handler) (request : Request)
    (writer : list WriterCall) :
  Method request = "OPTIONS"%string \/ Method request ∈ allowedMethods ->
  MethodMiddleware allowedMethods next request writer = next request writer.
Proof.
  intros Hpass. unfold MethodMiddleware.
  destruct (String.eqb_spec (Method request) "OPTIONS") as [Hopt | Hopt];
    [reflexivity |].
  destruct Hpass as [Heq | Hin]; [contradiction |].
  apply methodAllowed_elem in Hin. cbv zeta. rewrite Hin. reflexivity.
Qed.

Lemma MethodMiddleware_reject
    (allowedMethods : list string) (next : Handler) (request : Request)
    (writer : list WriterCall) :
  Method request <> "OPTIONS"%string ->
  Method request ∉ allowedMethods ->
  MethodMiddleware allowedMethods next request writer
  = Some (writer ++ [W_HeaderSet "Allow" (String.concat ", " allowedMethods);
                     W_Error "Method not allowed" 405]).
Proof.
  intros Hopt Hnot. unfold MethodMiddleware.
  destruct (String.eqb_spec (Method request) "OPTIONS") as [? | _];
    [contradiction |].
  cbv zeta.
  destruct (methodAllowed allowedMethods (Method request)) eqn:Hallowed;
    [| reflexivity].
  apply methodAllowed_elem in Hallowed. contradiction.
Qed.

(** X20.  [MethodMiddleware] hands the request to the next handler when its
    method is [OPTIONS] or is one of the allowed methods (compared byte for
    byte), and in no other case: then the next handler is not called, and
    the response is the [Allow] header with the allowed methods joined by
    ", " followed by [http.Error] with "Method not allowed" and 405. *)
Theorem MethodMiddleware_filter
    (allowedMethods : list string) (next : Handler) (request : Request)
    (writer : list WriterCall) :
  (Method request = "OPTIONS"%string \/ Method request ∈ allowedMethods ->
   MethodMiddleware allowedMethods next request writer = next request writer) /\
  (Method request <> "OPTIONS"%string ->
   Method request ∉ allowedMethods ->
   MethodMiddleware allowedMethods next request writer
   = Some (writer ++ [W_HeaderSet "Allow" (String.concat ", " allowedMethods);
                      W_Error "Method not allowed" 405])).
Proof.
  split.
  - apply MethodMiddleware_pass.
  - apply MethodMiddleware_reject.
Qed.

(** X21.  Behind [CORS], the method filter and the handler see no
    preflight: for the stack [Tower h [CORS; MethodMiddleware allowed]] an
    [OPTIONS] request is answered with the three CORS headers and status 200
    whatever the allowed methods; any other request gets the three headers
    first, and then the handler when its method is allowed, the 405 answer
    when it is not. *)
Theorem Tower_CORS_then_methods
    (allowedMethods : list string) (h : Handler) (request : Request)
    (writer : list WriterCall) :
  (Method request = "OPTIONS"%string ->
   Tower h [CORS; MethodMiddleware allowedMethods] request writer
   = Some (writer ++ corsCalls ++ [W_WriteHeader 200])) /\
  (Method request <> "OPTIONS"%string ->
   Method request ∈ allowedMethods ->
   Tower h [CORS; MethodMiddleware allowedMethods] request writer
   = h request (writer ++ corsCalls)) /\
  (Method request <> "OPTIONS"%string ->
   Method request ∉ allowedMethods ->
   Tower h [CORS; MethodMiddleware allowedMethods] request writer
   = Some (writer ++ corsCalls
           ++ [W_HeaderSet "Allow" (String.concat ", " allowedMethods);
               W_Error "Method not allowed" 405])).
Proof.
  rewrite Tower_foldr. cbn [foldr]. unfold CORS, corsCalls.
  rewrite <- !app_assoc. cbn [app].
  destruct (String.eqb_spec (Method request) "OPTIONS") as [Hopt | Hopt].
  - split; [intros _; reflexivity |]. split; intros Hne; contradiction.
  - split; [intros Heq; contradiction |].
    split; intros _ Hin.
    + apply MethodMiddleware_pass. right. exact Hin.
    + rewrite (MethodMiddleware_reject allowedMethods h request _ Hopt Hin).
      rewrite <- app_assoc. reflexivity.
Qed.

(** X22.  The order of the stack matters for rejected requests only: with
    the method filter outside [CORS], a request whose method is [OPTIONS] or
    allowed is answered as with [CORS] outside, and a rejected request gets
    the 405 answer without the CORS headers. *)
Theorem Tower_methods_then_CORS
    (allowedMethods : list string) (h : Handler) (request : Request)
    (writer : list WriterCall) :
  (Method request = "OPTIONS"%string \/ Method request ∈ allowedMethods ->
   Tower h [MethodMiddleware allowedMethods; CORS] request writer
   = Tower h [CORS; MethodMiddleware allowedMethods] request writer) /\
  (Method request <> "OPTIONS"%string ->
   Method request ∉ allowedMethods ->
   Tower h [MethodMiddleware allowedMethods; CORS] request writer
   = Some (writer ++ [W_HeaderSet "Allow" (String.concat ", " allowedMethods);
                      W_Error "Method not allowed" 405])).
Proof.
  rewrite !Tower_foldr. cbn [foldr].
  split.
  - intros Hpass.
    rewrite (MethodMiddleware_pass allowedMethods (CORS h) request writer Hpass).
    unfold CORS.
    destruct (String.eqb_spec (Method request) "OPTIONS") as [Hopt | Hopt];
      [reflexivity |].
    symmetry. apply MethodMiddleware_pass.
    destruct Hpass as [Heq | Hin]; [contradiction | right; exact Hin].
  - intros Hopt Hnot. apply MethodMiddleware_reject; assumption.
Qed.

Lemma sliceFrom_short (n : nat) (s : string) :
  (String.length s < n)%nat -> sliceFrom n s = None.
Proof.
  revert s. induction n as [| n IH]; intros s Hs; [lia |].
  destruct s as [| a s]; [reflexivity |]. cbn in *. apply IH. lia.
Qed.

Lemma sliceFrom_prefix (p t : string) :
  sliceFrom (String.length p) (p +:+ t) = Some t.
Proof. induction p as [| a p IH]; [destruct t; reflexivity | exact IH]. Qed.

(** X23.  Without an [Authorization] header, or with an empty one,
    [ProtectedHandler] answers 401 "missing authorization header" and does
    not consult [verifyToken]. *)
Theorem ProtectedHandler_missing_header
    (canon : string -> string) (verifyToken : string -> option error)
    (r : Request) (w : list WriterCall) :
  Header r !! canon "Authorization" = None
  \/ (exists vs, Header r !! canon "Authorization" = Some (""%string :: vs)) ->
  ProtectedHandler canon verifyToken r w
  = Some (w ++ [W_HeaderSet "Content-Type" "application/json";
                W_WriteHeader 401; W_Write "missing authorization header"]).
Proof.
  intros Hmissing. unfold ProtectedHandler, Header_Get. cbv zeta.
  destruct Hmissing as [-> | [vs ->]]; cbn [String.eqb];
    rewrite <- app_assoc; reflexivity.
Qed.

Lemma ProtectedHandler_missing_header_witness :
  ProtectedHandler sampleCanon sampleVerify request0 []
  = Some ([] ++ [W_HeaderSet "Content-Type" "application/json";
                 W_WriteHeader 401; W_Write "missing authorization header"]).
Proof.
  apply (ProtectedHandler_missing_header sampleCanon sampleVerify request0 []).
  left. reflexivity.
Defined.

(** X24.  An [Authorization] header that is not empty and shorter than the
    seven bytes of "Bearer " makes [ProtectedHandler] panic: the slice
    expression that drops the prefix is out of range. *)
Theorem ProtectedHandler_short_header_panics
    (canon : string -> string) (verifyToken : string -> option error)
    (r : Request) (w : list WriterCall) (t : string) (vs : list string) :
  Header r !! canon "Authorization" = Some (t :: vs) ->
  t <> ""%string ->
  (String.length t < 7)%nat ->
  ProtectedHandler canon verifyToken r w = None.
Proof.
  intros Hget Hne Hlen. unfold ProtectedHandler, Header_Get. cbv zeta.
  rewrite Hget.
  destruct (String.eqb_spec t "") as [? | _]; [contradiction |].
  rewrite sliceFrom_short by exact Hlen. reflexivity.
Qed.

Lemma ProtectedHandler_short_header_panics_witness :
  ProtectedHandler sampleCanon sampleVerify (requestWith "GET" "Basic") [] = None.
Proof.
  apply (ProtectedHandler_short_header_panics sampleCanon sampleVerify
           (requestWith "GET" "Basic") [] "Basic" []).
  - apply lookup_singleton_eq.
  - discriminate.
  - cbn. lia.
Defined.

(** X25.  [ProtectedHandler] does not look at the first seven bytes of the
    [Authorization] header: whatever they are, it hands the rest to
    [verifyToken], answers "access granted" (without writing a status) when
    that returns nil and 401 "invalid token" when it returns an error. *)
Theorem ProtectedHandler_ignores_scheme
    (canon : string -> string) (verifyToken : string -> option error)
    (r : Request) (w : list WriterCall) (p t : string) (vs : list string) :
  Header r !! canon "Authorization" = Some ((p +:+ t) :: vs) ->
  String.length p = 7%nat ->
  ProtectedHandler canon verifyToken r w
  = match verifyToken t with
    | Some _ =>
        Some (w ++ [W_HeaderSet "Content-Type" "application/json";
                    W_WriteHeader 401; W_Write "invalid token"])
    | None =>
        Some (w ++ [W_HeaderSet "Content-Type" "application/json";
                    W_Write "access granted"])
    end.
Proof.
  intros Hget Hlen. unfold ProtectedHandler, Header_Get. cbv zeta.
  rewrite Hget.
  assert (Hne : String.eqb (p +:+ t) "" = false).
  { destruct p as [| a p]; [discriminate | reflexivity]. }
  rewrite Hne.
  change (String.length "Bearer ") with 7%nat. rewrite <- Hlen, sliceFrom_prefix.
  destruct (verifyToken t); rewrite <- app_assoc; reflexivity.
Qed.

Lemma ProtectedHandler_ignores_scheme_witness :
  ProtectedHandler sampleCanon sampleVerify (requestWith "GET" "APIKEY=t0k3n") []
  = match sampleVerify "t0k3n" with
    | Some _ =>
        Some ([] ++ [W_HeaderSet "Content-Type" "application/json";
                     W_WriteHeader 401; W_Write "invalid token"])
    | None =>
        Some ([] ++ [W_HeaderSet "Content-Type" "application/json";
                     W_Write "access granted"])
    end.
Proof.
  apply (ProtectedHandler_ignores_scheme sampleCanon sampleVerify
           (requestWith "GET" "APIKEY=t0k3n") [] "APIKEY=" "t0k3n" []).
  - apply lookup_singleton_eq.
  - reflexivity.
Defined.

(** X26.  [LoginHandler] never writes to the response: after the
    [Content-Type] header its only calls on the writer are [WriteHeader]
    calls, so the token it creates goes to the standard output and not to
    the client.  The status is 401 unless the decoded user is "admin" with
    the password "123456"; then it is 200, preceded by a 500 when
    [createToken] fails (the error branch does not return). *)
Theorem LoginHandler_sends_no_body
    (decodeUser : option (list Byte.byte) -> User)
    (createToken : string -> string * option error)
    (r : Request) (w : list WriterCall) (stdout : list string) :
  exists codes,
    fst (LoginHandler decodeUser createToken r w stdout)
    = w ++ W_HeaderSet "Content-Type" "application/json"
           :: map W_WriteHeader codes /\
    (codes = [401]
     <-> ~ (Username (decodeUser (Body r)) = "admin"%string /\
            Password (decodeUser (Body r)) = "123456"%string)) /\
    (codes = [500; 200]
     <-> Username (decodeUser (Body r)) = "admin"%string /\
         Password (decodeUser (Body r)) = "123456"%string /\
         snd (createToken "admin") <> None) /\
    (codes = [200]
     <-> Username (decodeUser (Body r)) = "admin"%string /\
         Password (decodeUser (Body r)) = "123456"%string /\
         snd (createToken "admin") = None).
Proof.
  unfold LoginHandler. cbv zeta.
  destruct (String.eqb_spec (Username (decodeUser (Body r))) "admin") as [Hu | Hu];
    [destruct (String.eqb_spec (Password (decodeUser (Body r))) "123456") as [Hp | Hp] |];
    cbn [andb].
  - rewrite Hu. destruct (createToken "admin") as [tokenString [err |]]; cbn [fst snd].
    + exists [500; 200]. rewrite <- !app_assoc. split; [reflexivity |].
      repeat split; try discriminate; try tauto; intros (_ & _ & H); congruence.
    + exists [200]. rewrite <- !app_assoc. split; [reflexivity |].
      repeat split; try discriminate; try tauto; intros (_ & _ & H); congruence.
  - exists [401]. cbn [fst]. rewrite <- !app_assoc. split; [reflexivity |].
    repeat split; try discriminate; try tauto; intros (_ & H & _); congruence.
  - exists [401]. cbn [fst]. rewrite <- !app_assoc. split; [reflexivity |].
    repeat split; try discriminate; try tauto; intros (H & _); congruence.
Qed.
